(** * Webhook dispatch and delivery tracking

    A shallow embedding of [WebhookService] (server/utils/webhook-service.ts)
    and of the handlers of the administrative webhook routes
    (server/routes/webhooks.ts), with the properties of the dispatcher, the
    retry scheduler, the signer, the delivery ledger and the handlers.

    Conventions of the embedding.
    - JavaScript numbers that hold integers (attempt ordinals, retry counts,
      status codes, millisecond durations and delays) are [Z].  The success
      rate, the only quantity computed with fractional doubles, is a
      primitive binary64 [float], which is the JavaScript number type.
    - An instant is the number of milliseconds since the epoch.  A payload's
      [timestamp] holds the instant that [new Date().toISOString()] renders;
      the rendering is injective at millisecond resolution.
    - A thrown value is represented by its message, which is all the code
      reads from it ([error.message] or [String(error)]).
    - Objects used as string-keyed dictionaries (header maps) are [gmap]s.
    - The host is Node.js: a timer whose delay is not between 1 and
      [2^31 - 1] milliseconds is armed for 1 millisecond.  The database is
      PostgreSQL behind the drizzle query builder, which leaves a negative
      LIMIT out of the query and sends [null] as SQL NULL.
    - [async] functions run in a state-and-exception monad over a [World]
      that holds the clock of the running task, the requests put on the
      wire, the delivery table, the armed timers and the log.  A rejected
      promise is a computation that ends in [Throw]. *)

From Stdlib Require Import ZArith Floats Uint63 Ascii String.
From stdpp Require Import base option list gmap strings pretty sorting.

Local Open Scope Z_scope.

(** ** Data model (shared/schema.ts, shared/api.ts) *)

(** A JSON value: event data, which is [any] and only ever stored and
    serialised, and the content of a [jsonb] column. *)
#[local] Set Warnings "-register-all".
Inductive Json : Type :=
| JNull
| JBool (b : bool)
| JNumber (n : Z)
| JString (s : string)
| JArray (items : list Json)
| JObject (fields : list (string * Json)).

Abbreviation Headers := (gmap string string).

(** A row of the [webhooks] table ([typeof webhooks.$inferSelect]).
    Nullable columns are options.  [events] is a [jsonb] column: the create
    handler stores a non-empty array there, the update handler whatever JSON
    it is given, and the service casts what it reads to [string[]]. *)
Module Webhook.
Record t : Type := mk {
  id : string;
  name : string;
  url : string;
  secret : option string;
  events : Json;
  active : Z;
  userId : option string;
  description : option string;
  headers : option Headers;
  retryCount : option Z;
  createdAt : Z;
  updatedAt : Z
}.
End Webhook.
Abbreviation Webhook := Webhook.t.

(** [WebhookPayload] of shared/api.ts. *)
Module Payload.
Record t : Type := mk {
  event : string;
  timestamp : Z;
  data : Json;
  webhookId : string
}.
End Payload.
Abbreviation WebhookPayload := Payload.t.

(** A row of the [webhook_deliveries] table. [id] and [createdAt] are filled
    in by the database defaults, the rest by the insert. *)
Module Delivery.
Record t : Type := mk {
  id : string;
  webhookId : string;
  eventType : string;
  payload : WebhookPayload;
  responseStatus : option Z;
  responseBody : option string;
  responseHeaders : option Headers;
  duration : option Z;
  success : Z;
  attempt : Z;
  error : option string;
  createdAt : Z
}.
End Delivery.
Abbreviation WebhookDelivery := Delivery.t.

(** What [fetch] is called with. *)
Module Request.
Record t : Type := mk {
  url : string;
  method : string;
  headers : Headers;
  body : string;
  timeout : Z
}.
End Request.
Abbreviation Request := Request.t.

(** What [fetch] resolves to. [text] is [None] when reading the body
    rejects. *)
Module Response.
Record t : Type := mk {
  status : Z;
  statusText : string;
  text : option string;
  headers : Headers
}.
(** [response.ok]: the status is in the range 200-299. *)
Definition ok (r : t) : bool := (200 <=? status r) && (status r <=? 299).
End Response.
Abbreviation Response := Response.t.

(** ** JavaScript values *)

(** Truthiness of a nullable string: [null], [undefined] and the empty
    string are falsy. *)
Definition truthy (s : option string) : bool :=
  match s with
  | Some s => negb (String.eqb s "")
  | None => false
  end.

(** [n || d] on a nullable number: [null] and [0] select [d]. *)
Definition number_or (n : option Z) (d : Z) : Z :=
  match n with
  | Some n => if n =? 0 then d else n
  | None => d
  end.

(** [s || d] on a nullable string. *)
Definition string_or (s : option string) (d : string) : string :=
  match s with
  | Some s => if String.eqb s "" then d else s
  | None => d
  end.

(** [s.slice(0, n)]. *)
Definition slice0 (n : N) (s : string) : string :=
  String.substring 0 (N.to_nat n) s.

(** [x === s] for a JSON value [x] and a string [s]. *)
Definition is_string (s : string) (x : Json) : bool :=
  match x with
  | JString s' => String.eqb s' s
  | _ => false
  end.

(** ** The monad of asynchronous code *)

Inductive Result (A : Type) : Type :=
| Ok (a : A)
| Throw (message : string).
Arguments Ok {A} a.
Arguments Throw {A} message.

#[global] Instance Result_eq_dec {A} `{EqDecision A} : EqDecision (Result A).
Proof. solve_decision. Defined.

Inductive Level : Type := Info | Warn | Error.

Record LogEntry : Type := mkLog { level : Level; message : string }.

(** The arguments of one invocation of [deliverWebhook]. The only closure
    the code hands to [setTimeout] is [() => this.deliverWebhook(...)], so a
    timer's callback is represented by the arguments it captured. *)
Record Call : Type := mkCall {
  call_webhook : Webhook;
  call_eventType : string;
  call_data : Json;
  call_attempt : Z
}.

Record Timer : Type := mkTimer {
  fire_at : Z;
  delay : Z;
  callback : Call
}.

Record World : Type := mkWorld {
  clock : Z;                      (* Date.now() of the running task *)
  calls : list Call;              (* invocations of deliverWebhook so far *)
  wire : list Request;            (* requests handed to fetch *)
  ledger : list WebhookDelivery;  (* the webhook_deliveries table *)
  timers : list Timer;            (* armed by setTimeout, not yet fired *)
  log : list LogEntry
}.

Definition set_clock (t : Z) (s : World) : World :=
  mkWorld t (calls s) (wire s) (ledger s) (timers s) (log s).
Definition add_call (c : Call) (s : World) : World :=
  mkWorld (clock s) (calls s ++ [c]) (wire s) (ledger s) (timers s) (log s).
Definition add_request (r : Request) (s : World) : World :=
  mkWorld (clock s) (calls s) (wire s ++ [r]) (ledger s) (timers s) (log s).
Definition add_delivery (d : WebhookDelivery) (s : World) : World :=
  mkWorld (clock s) (calls s) (wire s) (ledger s ++ [d]) (timers s) (log s).
Definition set_timers (ts : list Timer) (s : World) : World :=
  mkWorld (clock s) (calls s) (wire s) (ledger s) ts (log s).
Definition add_log (e : LogEntry) (s : World) : World :=
  mkWorld (clock s) (calls s) (wire s) (ledger s) (timers s) (log s ++ [e]).

Definition M (A : Type) : Type := World → Result A * World.

#[global] Instance M_ret : MRet M := λ A a s, (Ok a, s).
#[global] Instance M_bind : MBind M := λ A B f m s,
  match m s with
  | (Ok a, s') => f a s'
  | (Throw e, s') => (Throw e, s')
  end.

(** [try { body } catch (error) { handler }]: effects made before the throw
    stay. *)
Definition try_catch {A} (body : M A) (handler : string → M A) : M A := λ s,
  match body s with
  | (Ok a, s') => (Ok a, s')
  | (Throw e, s') => handler e s'
  end.

(** A promise nobody awaits, or that [Promise.allSettled] watches: its
    outcome becomes a value. *)
Definition settle {A} (p : M A) : M (Result A) := λ s,
  let '(r, s') := p s in (Ok r, s').

Definition when (b : bool) (p : M unit) : M unit := if b then p else mret tt.

(** A synchronous computation inside an [async] function. *)
Definition sync {A} (r : Result A) : M A := λ s, (r, s).

(** [events.includes(eventType)] for whatever JSON value [events] is:
    [Array.prototype.includes] compares with [===], so only a string element
    can equal the event type; on a string it is [String.prototype.includes],
    the substring test; any other value has no method [includes], and the
    call throws a [TypeError]. *)
Definition includes (events : Json) (eventType : string) : Result bool :=
  match events with
  | JArray items => Ok (existsb (is_string eventType) items)
  | JString s => Ok (bool_decide (is_Some (String.index 0 eventType s)))
  | JNull => Throw "Cannot read properties of null (reading 'includes')"
  | _ => Throw "events.includes is not a function"
  end.

(** [array.filter(p)] with a predicate that can throw: the elements are
    tested in order and the first throw ends the call. *)
Fixpoint Array_filter {A} (p : A → Result bool) (l : list A) : Result (list A) :=
  match l with
  | [] => Ok []
  | x :: l' =>
      match p x with
      | Ok b =>
          match Array_filter p l' with
          | Ok kept => Ok (if b then x :: kept else kept)
          | Throw e => Throw e
          end
      | Throw e => Throw e
      end
  end.

(** ** The environment

    Everything the service does not define.  From the platform:
    [JSON.stringify] on a payload and the hex digest of
    [crypto.createHmac("sha256", key).update(message)].  From the
    collaborators: the content of the subscription table and whether
    querying it raises, what the transport answers and how long it takes,
    whether a ledger insert raises, and the random identifiers.  An HTTP
    attempt is identified, within one dispatch, by its subscription and its
    ordinal, so the collaborators' answers are indexed by them: every
    behaviour of the collaborators is some [Env]. *)

Inductive InsertSite : Type := InTry | InCatch.

Record Exchange : Type := mkExchange {
  outcome : Response + string;    (* resolves, or rejects with a message *)
  elapsed : Z                     (* milliseconds until it settles *)
}.

Record Env : Type := mkEnv {
  JSON_stringify : WebhookPayload → string;
  hmac_sha256_hex : string → string → string;
  webhooks_table : list Webhook;
  select_fault : option string;
  http : Webhook → Z → Exchange;
  insert_fault : Webhook → Z → InsertSite → option string;
  randomUUID : Webhook → Z → string;
  gen_random_uuid : nat → string
}.

(** ** The service (server/utils/webhook-service.ts) *)

Section WebhookService.

Context (env : Env).

(** *** Primitives *)

Definition Date_now : M Z := λ s, (Ok (clock s), s).

(** The running task resumes, or a new task starts, at instant [t]. *)
Definition resume_at (t : Z) : M unit := λ s, (Ok tt, set_clock t s).

Definition logger (l : Level) (msg : string) : M unit := λ s,
  (Ok tt, add_log (mkLog l msg) s).

(** The longest delay of a timer of the host, [2^31 - 1] milliseconds. *)
Definition TIMEOUT_MAX : Z := 2147483647.

(** What the host makes of the delay handed to [setTimeout]: a delay that
    is not between 1 and [TIMEOUT_MAX] is set to 1. *)
Definition timer_duration (ms : Z) : Z :=
  if (1 <=? ms) && (ms <=? TIMEOUT_MAX) then ms else 1.

(** [setTimeout(() => this.deliverWebhook(...), ms)]. *)
Definition setTimeout (cb : Call) (ms : Z) : M unit := λ s,
  (Ok tt,
   set_timers (timers s ++ [mkTimer (clock s + timer_duration ms)
                                    (timer_duration ms) cb]) s).

(** [await fetch(url, init)] for attempt [n] of subscription [w]: the
    request goes on the wire, the task is suspended for the time the
    exchange takes, and the promise resolves or rejects. *)
Definition fetch (w : Webhook) (n : Z) (req : Request) : M Response := λ s,
  let x := http env w n in
  let s' := set_clock (clock s + elapsed x) (add_request req s) in
  match outcome x with
  | inl r => (Ok r, s')
  | inr e => (Throw e, s')
  end.

(** [await db.insert(webhookDeliveries).values(row)] for attempt [n] of
    subscription [w]; the database fills in [id] and [createdAt]. *)
Definition db_insert_delivery (w : Webhook) (n : Z) (site : InsertSite)
    (row : string → Z → WebhookDelivery) : M unit := λ s,
  match insert_fault env w n site with
  | Some e => (Throw e, s)
  | None =>
      (Ok tt, add_delivery (row (gen_random_uuid env (length (ledger s))) (clock s)) s)
  end.

(** [webhook.retryCount || 3]. *)
Definition maxRetries (webhook : Webhook) : Z :=
  number_or (Webhook.retryCount webhook) 3.

(** *** generateSignature *)

Definition generateSignature (payload : WebhookPayload) (secret : string) : string :=
  "sha256=" +:+ hmac_sha256_hex env secret (JSON_stringify env payload).

(** *** deliverWebhook *)

Definition default_headers (webhook : Webhook) (eventType : string) (attempt : Z)
  : Headers :=
  <["Content-Type" := "application/json"]>
  (<["User-Agent" := "VideoHub-Webhook/1.0"]>
  (<["X-Webhook-Event" := eventType]>
  (<["X-Webhook-Delivery-ID" := randomUUID env webhook attempt]> ∅))).

(** The object literal with the subscription's headers spread last, then
    the signature assigned when the secret is truthy. *)
Definition request_headers (webhook : Webhook) (eventType : string) (attempt : Z)
    (payload : WebhookPayload) : Headers :=
  let headers := default ∅ (Webhook.headers webhook)
                 ∪ default_headers webhook eventType attempt in
  match Webhook.secret webhook with
  | Some secret =>
      if truthy (Some secret)
      then <["X-Webhook-Signature" := generateSignature payload secret]> headers
      else headers
  | None => headers
  end.

Definition deliverWebhook (webhook : Webhook) (eventType : string) (data : Json)
    (attempt : Z) : M unit := λ s0,
  let s := add_call (mkCall webhook eventType data attempt) s0 in
  (startTime ← Date_now;
   now ← Date_now;
   let payload := Payload.mk eventType now data (Webhook.id webhook) in
   try_catch
     (let headers := request_headers webhook eventType attempt payload in
      response ← fetch webhook attempt
        (Request.mk (Webhook.url webhook) "POST" headers
           (JSON_stringify env payload) 30000);
      now ← Date_now;
      let duration := now - startTime in
      let responseBody := default "" (Response.text response) in
      let success := Response.ok response in
      db_insert_delivery webhook attempt InTry (λ id createdAt,
        Delivery.mk id (Webhook.id webhook) eventType payload
          (Some (Response.status response))
          (Some (slice0 5000%N responseBody))
          (Some (Response.headers response))
          (Some duration)
          (if success then 1 else 0)
          attempt
          (if success then None
           else Some ("HTTP " +:+ pretty (Response.status response) +:+ ": "
                      +:+ Response.statusText response))
          createdAt);;
      when (negb success && (attempt <? maxRetries webhook))
        (logger Warn ("Webhook delivery failed, retrying (" +:+ pretty attempt
                      +:+ "/" +:+ pretty (maxRetries webhook) +:+ ")");;
         setTimeout (mkCall webhook eventType data (attempt + 1))
                    (2 ^ attempt * 1000));;
      logger Info "Webhook delivered successfully")
     (λ errorMessage,
      now ← Date_now;
      let duration := now - startTime in
      db_insert_delivery webhook attempt InCatch (λ id createdAt,
        Delivery.mk id (Webhook.id webhook) eventType payload
          None None None
          (Some duration)
          0
          attempt
          (Some (slice0 5000%N errorMessage))
          createdAt);;
      if attempt <? maxRetries webhook
      then
        logger Warn ("Webhook delivery error, retrying (" +:+ pretty attempt
                     +:+ "/" +:+ pretty (maxRetries webhook) +:+ ")");;
        setTimeout (mkCall webhook eventType data (attempt + 1))
                   (2 ^ attempt * 1000)
      else
        logger Error "Webhook delivery failed after all retries")) s.

(** *** triggerEvent *)

(** [db.select().from(webhooks).where(and(eq(webhooks.active, 1),
    eq(webhooks.userId, userId)))]. A null owner equals no user id. *)
Definition select_active_webhooks (userId : string) : M (list Webhook) := λ s,
  match select_fault env with
  | Some e => (Throw e, s)
  | None =>
      (Ok (filter (λ w, Webhook.active w = 1 ∧ Webhook.userId w = Some userId)
                  (webhooks_table env)), s)
  end.

(** One promise started by [map]: it runs as a task of its own from the
    instant [t0] of the dispatch and settles at its own instant. *)
Definition start {A} (t0 : Z) (p : M A) : M (Result A * Z) := λ s,
  let '(r, s') := p (set_clock t0 s) in (Ok (r, clock s'), s').

(** [await Promise.allSettled(promises)]: every promise is started at the
    current instant, the caller resumes when the last one has settled, and
    a rejection is a value of the result. *)
Definition Promise_allSettled {A} (promises : list (M A)) : M (list (Result A)) :=
  t0 ← Date_now;
  settled ← mapM (start t0) promises;
  resume_at (foldr Z.max t0 (settled.*2));;
  mret (settled.*1).

Definition triggerEvent (eventType : string) (data : Json) (userId : string)
  : M unit :=
  try_catch
    (activeWebhooks ← select_active_webhooks userId;
     matchingWebhooks ←
       sync (Array_filter (λ webhook, includes (Webhook.events webhook) eventType)
               activeWebhooks);
     logger Info ("Triggering " +:+ pretty (length matchingWebhooks)
                  +:+ " webhooks for event: " +:+ eventType);;
     let deliveryPromises :=
       (λ webhook, deliverWebhook webhook eventType data 1) <$> matchingWebhooks in
     Promise_allSettled deliveryPromises;;
     mret tt)
    (λ error, logger Error "Failed to trigger webhooks").

(** *** The event loop

    When nothing runs, the timer that is due first fires (the one armed
    first among equals): the task of its callback starts at the instant the
    timer was armed for.  The promise of the callback is dropped. *)

Fixpoint pop_due (ts : list Timer) : option (Timer * list Timer) :=
  match ts with
  | [] => None
  | t :: ts' =>
      match pop_due ts' with
      | Some (u, rest) =>
          if fire_at u <? fire_at t then Some (u, t :: rest) else Some (t, ts')
      | None => Some (t, [])
      end
  end.

Definition fire (t : Timer) : M unit :=
  let c := callback t in
  resume_at (fire_at t);;
  settle (deliverWebhook (call_webhook c) (call_eventType c) (call_data c)
                         (call_attempt c));;
  mret tt.

Fixpoint drain (fuel : nat) : M unit := λ s,
  match fuel with
  | O => (Ok tt, s)
  | S fuel' =>
      match pop_due (timers s) with
      | Some (t, rest) => (fire t;; drain fuel') (set_timers rest s)
      | None => (Ok tt, s)
      end
  end.

(** A bound on the invocations a timer can still lead to: its own and one
    per ordinal up to the retry limit. *)
Definition invocations_left (t : Timer) : nat :=
  S (Z.to_nat (maxRetries (call_webhook (callback t)) - call_attempt (callback t))).

Definition event_loop : M unit := λ s,
  drain (sum_list (invocations_left <$> timers s)) s.

(** A delivery pipeline: the initial invocation and the retries its timers
    lead to. *)
Definition pipeline (webhook : Webhook) (eventType : string) (data : Json) : M unit :=
  settle (deliverWebhook webhook eventType data 1);;
  event_loop.

(** *** What the properties speak of *)

(** The subscriptions a dispatch of [e] by tenant [uid] finds: what the
    filter makes of the active subscriptions of the tenant. *)
Definition matching (e uid : string) : Result (list Webhook) :=
  Array_filter (λ w, includes (Webhook.events w) e)
    (filter (λ w, Webhook.active w = 1 ∧ Webhook.userId w = Some uid)
            (webhooks_table env)).

(** The delay of the timer armed after attempt [n]: the host's reading of
    [Math.pow(2, n) * 1000].  Ordinals are at least 1: the parameter
    defaults to 1 and is only ever incremented. *)
Definition retry_wait (n : Z) : Z := timer_duration (2 ^ n * 1000).

(** The HTTP attempt with ordinal [n] for [w] succeeds: [fetch] resolves
    and [response.ok] holds. *)
Definition attempt_succeeds (w : Webhook) (n : Z) : bool :=
  match outcome (http env w n) with
  | inl r => Response.ok r
  | inr _ => false
  end.

(** The ledger accepts every insert made for [w]. *)
Definition ledger_accepts (w : Webhook) : Prop :=
  ∀ n site, insert_fault env w n site = None.

(** The timer an invocation that ends at instant [t] arms, if any. *)
Definition retry_timer (w : Webhook) (e : string) (d : Json) (n t : Z) : list Timer :=
  if negb (attempt_succeeds w n) && (n <? maxRetries w)
  then [mkTimer (t + retry_wait n) (retry_wait n) (mkCall w e d (n + 1))]
  else [].

(** [r] is the record of attempt [n] of the delivery of [(e, d)] to [w],
    made by an invocation that started at instant [t]. *)
Record attempt_record (w : Webhook) (e : string) (d : Json) (n t : Z)
    (r : WebhookDelivery) : Prop := {
  record_webhookId : Delivery.webhookId r = Webhook.id w;
  record_eventType : Delivery.eventType r = e;
  record_payload : Delivery.payload r = Payload.mk e t d (Webhook.id w);
  record_attempt : Delivery.attempt r = n;
  record_success : Delivery.success r = if attempt_succeeds w n then 1 else 0;
  record_duration : Delivery.duration r = Some (elapsed (http env w n));
  record_createdAt : Delivery.createdAt r = t + elapsed (http env w n)
}.

(** The records of a retry chain that starts with attempt [n] at instant
    [t]: every attempt but the last failed below the retry limit and the
    next one started when its timer was due. *)
Inductive retry_chain (w : Webhook) (e : string) (d : Json)
  : Z → Z → list WebhookDelivery → Prop :=
| chain_stop n t r :
    attempt_record w e d n t r →
    retry_timer w e d n (Delivery.createdAt r) = [] →
    retry_chain w e d n t [r]
| chain_retry n t r rs :
    attempt_record w e d n t r →
    attempt_succeeds w n = false →
    n < maxRetries w →
    retry_chain w e d (n + 1) (Delivery.createdAt r + retry_wait n) rs →
    retry_chain w e d n t (r :: rs).

(** The record of a response to attempt [n], made by an invocation that
    started at instant [t0] when the ledger held [len] rows. *)
Definition response_row (w : Webhook) (e : string) (d : Json) (n t0 : Z) (len : nat)
    (resp : Response) : WebhookDelivery :=
  Delivery.mk (gen_random_uuid env len) (Webhook.id w) e
    (Payload.mk e t0 d (Webhook.id w))
    (Some (Response.status resp))
    (Some (slice0 5000%N (default "" (Response.text resp))))
    (Some (Response.headers resp))
    (Some (t0 + elapsed (http env w n) - t0))
    (if Response.ok resp then 1 else 0)
    n
    (if Response.ok resp then None
     else Some ("HTTP " +:+ pretty (Response.status resp) +:+ ": "
                +:+ Response.statusText resp))
    (t0 + elapsed (http env w n)).

(** The record the [catch] block writes for the error [msg]. *)
Definition failure_row (w : Webhook) (e : string) (d : Json) (n t0 : Z) (len : nat)
    (msg : string) : WebhookDelivery :=
  Delivery.mk (gen_random_uuid env len) (Webhook.id w) e
    (Payload.mk e t0 d (Webhook.id w))
    None None None
    (Some (t0 + elapsed (http env w n) - t0))
    0
    n
    (Some (slice0 5000%N msg))
    (t0 + elapsed (http env w n)).

(** The timer for attempt [n + 1], armed at instant [t]. *)
Definition next_attempt (w : Webhook) (e : string) (d : Json) (n t : Z) : Timer :=
  mkTimer (t + retry_wait n) (retry_wait n) (mkCall w e d (n + 1)).

End WebhookService.

(** ** Delivery statistics ([WebhookService.getDeliveryStats]) *)

(** A JavaScript number holding the integer [z], exact below 2^53. *)
Definition number (z : Z) : float :=
  if z <? 0 then (- PrimFloat.of_uint63 (Uint63.of_Z (- z)))%float
  else PrimFloat.of_uint63 (Uint63.of_Z z).

(** The value of a machine integer, read bit by bit. *)
Fixpoint int_to_Z (bits : nat) (i : int) : Z :=
  match bits with
  | O => 0
  | S bits =>
      if PrimInt63.eqb i 0 then 0
      else (if Uint63.is_even i then Z.double else Z.succ_double)
             (int_to_Z bits (PrimInt63.lsr i 1))
  end.

(** The integer [Math.round] yields on a finite double: the nearest one, the
    upper one at a tie.  A finite double other than zero is
    [± m * 2^(exp - 2154)] exactly, where [m] (53 bits) and [exp] are its
    normalised mantissa and shifted exponent; so with [k = 2154 - exp] the
    result is [floor ((m + 2^(k-1)) / 2^k)] for a positive double and
    [- ceil ((m - 2^(k-1)) / 2^k)] for a negative one. *)
Definition round_half_up (x : float) : option Z :=
  if PrimFloat.is_nan x || PrimFloat.is_infinity x then None
  else if PrimFloat.is_zero x then Some 0
  else
    let (r, exp) := frshiftexp x in
    let m := normfr_mantissa r in
    if PrimInt63.leb 2154 exp
    then
      let n := Z.shiftl (int_to_Z 63 m) (int_to_Z 63 (PrimInt63.sub exp 2154)) in
      Some (if PrimFloat.get_sign x then - n else n)
    else
      let k := PrimInt63.sub 2154 exp in
      if PrimInt63.leb 63 k then Some 0
      else
        let h := PrimInt63.lsl 1 (PrimInt63.sub k 1) in
        if PrimFloat.get_sign x
        then Some (- int_to_Z 63 (PrimInt63.lsr (PrimInt63.sub (PrimInt63.add m h) 1) k))
        else Some (int_to_Z 63 (PrimInt63.lsr (PrimInt63.add m h) k)).

(** The same integer read off the specification of binary64 values
    ([Prim2SF]); the two are compared on samples below. *)
Definition round_half_up_SF (x : float) : option Z :=
  match Prim2SF x with
  | S754_zero _ => Some 0
  | S754_finite s m e =>
      let n := if s then Z.neg m else Z.pos m in
      Some (if 0 <=? e then Z.shiftl n e
            else Z.shiftr (2 * n + Z.shiftl 1 (- e)) (1 - e))
  | _ => None
  end.

(** [Math.round(x)]; NaN and the infinities are returned as they are. *)
Definition Math_round (x : float) : float :=
  match round_half_up x with
  | Some z => number z
  | None => x
  end.

(** [Math.round(p / q)] for integers [p] and [q > 0].  The double quotient
    and the exact one round to the same integer when [|p| < 2^41] and
    [q <= 1000] (the quotient is a half-integer exactly, or at least 1/2000
    away from one), which the integer columns and the row limit ensure. *)
Definition Math_round_quotient (p q : Z) : Z := (2 * p + q) `div` (2 * q).

Record Stats : Type := mkStats {
  total : Z;
  successful : Z;
  failed : Z;
  successRate : float;
  avgDuration : Z
}.

(** [orderBy(desc(webhookDeliveries.createdAt))]. *)
Definition newer_first (a b : WebhookDelivery) : Prop :=
  Delivery.createdAt b ≤ Delivery.createdAt a.

#[global] Instance newer_first_dec a b : Decision (newer_first a b).
Proof. unfold newer_first. apply _. Defined.

(** [db.select().from(webhookDeliveries).where(eq(webhookDeliveries.webhookId,
    webhookId)).orderBy(desc(webhookDeliveries.createdAt)).limit(1000)] on
    the content [table] of the table. *)
Definition select_recent_deliveries (table : list WebhookDelivery) (webhookId : string)
  : list WebhookDelivery :=
  take 1000 (merge_sort newer_first
               (filter (λ d, Delivery.webhookId d = webhookId) table)).

(** The value the promise of [getDeliveryStats] resolves to. *)
Definition getDeliveryStats (table : list WebhookDelivery) (webhookId : string) : Stats :=
  let deliveries := select_recent_deliveries table webhookId in
  let total := Z.of_nat (length deliveries) in
  let successful :=
    Z.of_nat (length (filter (λ d, Delivery.success d = 1) deliveries)) in
  let failed := total - successful in
  let successRate :=
    if 0 <? total then (number successful / number total * number 100)%float
    else number 0 in
  let sum := foldl (λ sum d, sum + number_or (Delivery.duration d) 0) 0 deliveries in
  {| total := total;
     successful := successful;
     failed := failed;
     successRate := (Math_round (successRate * number 100) / number 100)%float;
     avgDuration := Math_round_quotient sum (if total =? 0 then 1 else total) |}.

(** *** A decision procedure for the rounding of the success rate

    The success rate is computed in double precision, so its rounding is
    settled by running the computation on every pair the row limit allows. *)

(** The integer [Math.round(successRate * 100)] for given counts. *)
Definition hundredths (successful total : Z) : option Z :=
  round_half_up (number successful / number total * number 100 * number 100)%float.

(** That integer is one nearest to [10000 * successful / total]. *)
Definition nearest_hundredth (successful total : Z) : bool :=
  match hundredths successful total with
  | Some r => 2 * Z.abs (r * total - 10000 * successful) <=? total
  | None => false
  end.

Definition nearest_hundredth_upto (limit : Z) : bool :=
  forallb (λ total, forallb (λ successful, nearest_hundredth successful total)
                            (seqZ 0 (total + 1)))
          (seqZ 1 limit).

(** ** The create handler ([POST /api/admin/webhooks], server/routes/webhooks.ts) *)

(** [req.body] of a create request.  The scalar fields are taken at the
    types [WebhookConfig] of shared/api.ts gives them, [None] being a field
    that is absent; [events] is whatever JSON value the request holds. *)
Module CreateBody.
Record t : Type := mk {
  name : option string;
  url : option string;
  secret : option string;
  events : option Json;
  description : option string;
  headers : option Headers;
  retryCount : option Z
}.
End CreateBody.

(** [res.status(code).json(...)]. *)
Inductive Reply : Type :=
| ReplyError (status : Z) (error : string)
| ReplyWebhook (status : Z) (webhook : Webhook).

(** What the handler does not decide: the entropy behind
    [crypto.randomBytes], whether the insert raises, and the defaults the
    database fills in. *)
Record StoreEnv : Type := mkStoreEnv {
  entropy : nat → Byte.byte;
  insert_webhook_fault : option string;
  new_webhook_id : string;
  db_now : Z
}.

Definition hex_digit (n : N) : ascii :=
  default "0"%char (String.get (N.to_nat n) "0123456789abcdef").


(** [buffer.toString("hex")]. *)
Fixpoint toString_hex (bytes : list Byte.byte) : string :=
  match bytes with
  | [] => ""
  | b :: bytes' =>
      String (hex_digit (Byte.to_N b `div` 16)%N)
        (String (hex_digit (Byte.to_N b `mod` 16)%N) (toString_hex bytes'))
  end.

Section AdminRoutes.

(** [new URL(url)] does not throw. *)
Context (URL_parses : string → bool).
Context (store : StoreEnv).

(** [crypto.randomBytes(n)]. *)
Definition randomBytes (n : nat) : list Byte.byte := entropy store <$> seq 0 n.

Definition create_webhook (userId : option string) (body : CreateBody.t)
    (table : list Webhook) : Reply * list Webhook :=
  if negb (truthy userId) then (ReplyError 401 "Unauthorized", table)
  else
    match CreateBody.name body, CreateBody.url body, CreateBody.events body with
    | Some name, Some url, Some (JArray (event :: events)) =>
        if String.eqb name "" || String.eqb url ""
        then (ReplyError 400
                "Missing required fields: name, url, and events are required", table)
        else if negb (URL_parses url)
        then (ReplyError 400 "Invalid URL format", table)
        else
          let generatedSecret :=
            string_or (CreateBody.secret body) (toString_hex (randomBytes 32)) in
          match insert_webhook_fault store with
          | Some e => (ReplyError 500 "Failed to create webhook", table)
          | None =>
              let newWebhook :=
                Webhook.mk (new_webhook_id store) name url (Some generatedSecret)
                  (JArray (event :: events)) 1 userId (CreateBody.description body)
                  (CreateBody.headers body)
                  (Some (number_or (CreateBody.retryCount body) 3))
                  (db_now store) (db_now store) in
              (ReplyWebhook 201 newWebhook, table ++ [newWebhook])
          end
    | _, _, _ =>
        (ReplyError 400
           "Missing required fields: name, url, and events are required", table)
    end.

End AdminRoutes.

(** ** Test deliveries ([WebhookService.testWebhook]) *)

(** The object [testWebhook] resolves to. *)
Module TestResult.
Record t : Type := mk {
  success : bool;
  message : string
}.
End TestResult.

Section TestWebhook.

(** [date.toISOString()], which renders an instant. *)
Context (toISOString : Z → string).
Context (env : Env).

(** [db.select().from(webhooks).where(eq(webhooks.id, webhookId)).limit(1)]. *)
Definition select_webhook_by_id (webhookId : string) : M (list Webhook) := λ s,
  match select_fault env with
  | Some e => (Throw e, s)
  | None =>
      (Ok (take 1 (filter (λ w, Webhook.id w = webhookId) (webhooks_table env))), s)
  end.

(** The data of a test delivery. *)
Definition test_data (now : Z) : Json :=
  JObject [("message", JString "This is a test webhook delivery");
           ("timestamp", JString (toISOString now))].

(** What is thrown inside the service is an [Error], so the [catch] block
    reports its message. *)
Definition testWebhook (webhookId : string) : M TestResult.t :=
  try_catch
    (webhook ← select_webhook_by_id webhookId;
     match webhook with
     | [] => mret (TestResult.mk false "Webhook not found")
     | webhook0 :: _ =>
         now ← Date_now;
         deliverWebhook env webhook0 "webhook.test" (test_data now) 1;;
         mret (TestResult.mk true "Test webhook delivered successfully")
     end)
    (λ error, mret (TestResult.mk false error)).

End TestWebhook.

(** ** The other handlers of the administrative routes
    (server/routes/webhooks.ts)

    The handlers read and write the [webhooks] table and, for the delivery
    history, the [webhook_deliveries] table; the tables are passed in and the
    new content is returned with the reply.  The model of these handlers
    stops at the reply and the tables: the lines they write to the log are
    left out. *)

(** [req.body] of a PATCH request: [None] is a field that is [undefined];
    for a nullable column the given value may be [null]; [events] is
    whatever JSON value the request holds. *)
Module PatchBody.
Record t : Type := mk {
  name : option string;
  url : option string;
  secret : option (option string);
  events : option Json;
  active : option bool;
  description : option (option string);
  headers : option (option Headers);
  retryCount : option (option Z)
}.
End PatchBody.

(** What a handler sends: [res.status(code).json(...)], with status 200
    where the handler sets none, or [res.status(204).send()]. *)
Inductive RouteReply : Type :=
| Failure (status : Z) (error : string)
| WebhookList (webhooks : list Webhook) (total : Z)
| WebhookDetail (webhook : Webhook) (stats : Stats)
| WebhookUpdated (webhook : Webhook)
| NoContent
| TestOutcome (result : TestResult.t)
| DeliveryPage (deliveries : list WebhookDelivery) (total : Z) (successRate : float).

(** Whether the queries, or the statements that write, raise. *)
Record DbFaults : Type := mkDbFaults {
  read_fault : option string;
  write_fault : option string
}.

(** [orderBy(desc(webhooks.createdAt))]. *)
Definition newer_created (a b : Webhook) : Prop :=
  Webhook.createdAt b ≤ Webhook.createdAt a.

#[global] Instance newer_created_dec a b : Decision (newer_created a b).
Proof. unfold newer_created. apply _. Defined.

(** [const [webhook] = await db.select().from(webhooks)
    .where(eq(webhooks.id, id)).limit(1)]. *)
Definition find_webhook (id : string) (table : list Webhook) : option Webhook :=
  head (filter (λ w, Webhook.id w = id) table).

Section WebhookRoutes.

Context (URL_parses : string → bool).
Context (faults : DbFaults).

(** [GET /api/admin/webhooks]. *)
Definition get_webhooks (userId : option string) (table : list Webhook) : RouteReply :=
  match userId with
  | Some uid =>
      if String.eqb uid "" then Failure 401 "Unauthorized"
      else
        match read_fault faults with
        | Some e => Failure 500 "Failed to fetch webhooks"
        | None =>
            let userWebhooks :=
              merge_sort newer_created
                (filter (λ w, Webhook.userId w = Some uid) table) in
            WebhookList userWebhooks (Z.of_nat (length userWebhooks))
        end
  | None => Failure 401 "Unauthorized"
  end.

(** [GET /api/admin/webhooks/:id]. *)
Definition get_webhook (userId : option string) (id : string)
    (table : list Webhook) (ledger : list WebhookDelivery) : RouteReply :=
  match userId with
  | Some uid =>
      if String.eqb uid "" then Failure 401 "Unauthorized"
      else
        match read_fault faults with
        | Some e => Failure 500 "Failed to fetch webhook"
        | None =>
            match find_webhook id table with
            | None => Failure 404 "Webhook not found"
            | Some webhook =>
                if decide (Webhook.userId webhook = Some uid)
                then WebhookDetail webhook (getDeliveryStats ledger id)
                else Failure 403 "Forbidden"
            end
        end
  | None => Failure 401 "Unauthorized"
  end.

(** [if (url) { try { new URL(url) } catch { return 400 } }]. *)
Definition url_rejected (url : option string) : bool :=
  match url with
  | Some url => negb (String.eqb url "") && negb (URL_parses url)
  | None => false
  end.

(** [events: null] asks for a NULL in a column that is NOT NULL, which the
    database refuses. *)
Definition update_refused (body : PatchBody.t) : bool :=
  match PatchBody.events body with
  | Some JNull => true
  | _ => false
  end.

(** The row after [db.update(webhooks).set(updateData)]: the fields of the
    body that are not [undefined], [active ? 1 : 0], and [updatedAt]. *)
Definition apply_update (body : PatchBody.t) (now : Z) (w : Webhook) : Webhook :=
  Webhook.mk (Webhook.id w)
    (default (Webhook.name w) (PatchBody.name body))
    (default (Webhook.url w) (PatchBody.url body))
    (default (Webhook.secret w) (PatchBody.secret body))
    (default (Webhook.events w) (PatchBody.events body))
    (match PatchBody.active body with
     | Some active => if active then 1 else 0
     | None => Webhook.active w
     end)
    (Webhook.userId w)
    (default (Webhook.description w) (PatchBody.description body))
    (default (Webhook.headers w) (PatchBody.headers body))
    (default (Webhook.retryCount w) (PatchBody.retryCount body))
    (Webhook.createdAt w)
    now.

(** [PATCH /api/admin/webhooks/:id], at instant [now]. *)
Definition patch_webhook (now : Z) (userId : option string) (id : string)
    (body : PatchBody.t) (table : list Webhook) : RouteReply * list Webhook :=
  match userId with
  | Some uid =>
      if String.eqb uid "" then (Failure 401 "Unauthorized", table)
      else
        match read_fault faults with
        | Some e => (Failure 500 "Failed to update webhook", table)
        | None =>
            match find_webhook id table with
            | None => (Failure 404 "Webhook not found", table)
            | Some existingWebhook =>
                if decide (Webhook.userId existingWebhook = Some uid)
                then
                  if url_rejected (PatchBody.url body)
                  then (Failure 400 "Invalid URL format", table)
                  else if update_refused body
                  then (Failure 500 "Failed to update webhook", table)
                  else
                    match write_fault faults with
                    | Some e => (Failure 500 "Failed to update webhook", table)
                    | None =>
                        (WebhookUpdated (apply_update body now existingWebhook),
                         (λ w, if decide (Webhook.id w = id)
                               then apply_update body now w else w) <$> table)
                    end
                else (Failure 403 "Forbidden", table)
            end
        end
  | None => (Failure 401 "Unauthorized", table)
  end.

(** [DELETE /api/admin/webhooks/:id]; the deliveries of the subscription go
    with it ([onDelete: "cascade"] in the schema). *)
Definition delete_webhook (userId : option string) (id : string)
    (table : list Webhook) (ledger : list WebhookDelivery)
  : RouteReply * (list Webhook * list WebhookDelivery) :=
  match userId with
  | Some uid =>
      if String.eqb uid "" then (Failure 401 "Unauthorized", (table, ledger))
      else
        match read_fault faults with
        | Some e => (Failure 500 "Failed to delete webhook", (table, ledger))
        | None =>
            match find_webhook id table with
            | None => (Failure 404 "Webhook not found", (table, ledger))
            | Some webhook =>
                if decide (Webhook.userId webhook = Some uid)
                then
                  match write_fault faults with
                  | Some e => (Failure 500 "Failed to delete webhook", (table, ledger))
                  | None =>
                      (NoContent,
                       (filter (λ w, Webhook.id w ≠ id) table,
                        filter (λ d, Delivery.webhookId d ≠ id) ledger))
                  end
                else (Failure 403 "Forbidden", (table, ledger))
            end
        end
  | None => (Failure 401 "Unauthorized", (table, ledger))
  end.

(** [.limit(limit)] of the query builder, which leaves out a LIMIT that is
    negative. *)
Definition query_limit {A} (limit : Z) (rows : list A) : list A :=
  if limit <? 0 then rows else take (Z.to_nat limit) rows.

(** [GET /api/admin/webhooks/:id/deliveries]. [limit] and [offset] are what
    [parseInt] made of the query parameters, [None] for NaN.  The query
    builder leaves out an OFFSET of 0 and passes on any other, and the
    database rejects a negative one. *)
Definition get_deliveries (userId : option string) (id : string)
    (limit offset : option Z) (table : list Webhook) (ledger : list WebhookDelivery)
  : RouteReply :=
  let limit := Z.min (number_or limit 50) 100 in
  let offset := number_or offset 0 in
  match userId with
  | Some uid =>
      if String.eqb uid "" then Failure 401 "Unauthorized"
      else
        match read_fault faults with
        | Some e => Failure 500 "Failed to fetch webhook deliveries"
        | None =>
            match find_webhook id table with
            | None => Failure 404 "Webhook not found"
            | Some webhook =>
                if decide (Webhook.userId webhook = Some uid)
                then
                  if offset <? 0
                  then Failure 500 "Failed to fetch webhook deliveries"
                  else
                    let mine := filter (λ d, Delivery.webhookId d = id) ledger in
                    let deliveries :=
                      query_limit limit
                        (drop (Z.to_nat offset) (merge_sort newer_first mine)) in
                    let total := Z.of_nat (length mine) in
                    let successful :=
                      Z.of_nat (length (filter (λ d, Delivery.success d = 1) deliveries)) in
                    let successRate :=
                      if 0 <? Z.of_nat (length deliveries)
                      then (number successful / number (Z.of_nat (length deliveries))
                            * number 100)%float
                      else number 0 in
                    DeliveryPage deliveries total
                      (Math_round (successRate * number 100) / number 100)%float
                else Failure 403 "Forbidden"
            end
        end
  | None => Failure 401 "Unauthorized"
  end.

End WebhookRoutes.

(** [POST /api/admin/webhooks/:id/test]; the handler and the service read
    the same table. *)
Definition post_test (toISOString : Z → string) (env : Env)
    (userId : option string) (id : string) : M RouteReply :=
  match userId with
  | Some uid =>
      if String.eqb uid "" then mret (Failure 401 "Unauthorized")
      else
        try_catch
          (rows ← select_webhook_by_id env id;
           match rows with
           | [] => mret (Failure 404 "Webhook not found")
           | webhook :: _ =>
               if decide (Webhook.userId webhook = Some uid)
               then
                 result ← testWebhook toISOString env id;
                 mret (TestOutcome result)
               else mret (Failure 403 "Forbidden")
           end)
          (λ error,
             logger Error "Failed to test webhook";;
             mret (Failure 500 "Failed to test webhook"))
  | None => mret (Failure 401 "Unauthorized")
  end.

(** ** Scenarios

    Concrete environments on which the properties are exercised.  The
    stand-ins for [JSON.stringify] and the HMAC digest only need to be
    functions. *)

Definition world0 : World := mkWorld 0 [] [] [] [] [].

Definition respond (status : Z) (statusText : string) : Response :=
  Response.mk status statusText (Some "") ∅.

Definition subscription (id : string) (secret : option string)
    (headers : option Headers) (retryCount : option Z) : Webhook :=
  Webhook.mk id "hook" "https://example.test/hook" secret
    (JArray [JString "video.deleted"]) 1
    (Some "tenant-x") None headers retryCount 0 0.

Definition scenario (table : list Webhook) (http : Webhook → Z → Exchange)
    (insert_fault : Webhook → Z → InsertSite → option string) : Env :=
  mkEnv (λ p, Payload.event p +:+ "@" +:+ pretty (Payload.timestamp p))
        (λ key message, key +:+ ":" +:+ message)
        table None http insert_fault
        (λ w n, Webhook.id w +:+ "#" +:+ pretty n)
        (λ i, "row-" +:+ pretty (Z.of_nat i)).

Definition no_fault : Webhook → Z → InsertSite → option string := λ _ _ _, None.

(** Scenario A: the endpoint always answers 500 after 5 ms; three attempts
    are allowed. *)
Definition hook_a : Webhook := subscription "wh-a" (Some "s3cr3t") None (Some 3).
Definition env_a : Env :=
  scenario [hook_a] (λ _ _, mkExchange (inl (respond 500 "Internal Server Error")) 5)
           no_fault.

(** The same endpoint, for a subscription stored with [retryCount = -1]. *)
Definition hook_neg : Webhook := subscription "wh-neg" (Some "s3cr3t") None (Some (-1)).
Definition env_neg : Env :=
  scenario [hook_neg] (λ _ _, mkExchange (inl (respond 500 "Internal Server Error")) 5)
           no_fault.

(** The same endpoint, for a subscription stored with [retryCount = 23]. *)
Definition hook_big : Webhook := subscription "wh-big" (Some "s3cr3t") None (Some 23).
Definition env_big : Env :=
  scenario [hook_big] (λ _ _, mkExchange (inl (respond 500 "Internal Server Error")) 5)
           no_fault.

(** The endpoint always answers 200, but the insert that records the first
    response raises. *)
Definition env_fault : Env :=
  scenario [hook_a] (λ _ _, mkExchange (inl (respond 200 "OK")) 5)
           (λ _ n site,
              match site with
              | InTry => if n =? 1 then Some "invalid byte sequence" else None
              | InCatch => None
              end).

(** Scenario C: tenant X owns a matching active subscription, an inactive
    one and one for another event; tenant Y owns a matching active one.  The
    endpoints do not answer and the requests time out after 30 s. *)
Definition hook_other_tenant : Webhook :=
  Webhook.mk "wh-y" "hook" "https://example.test/y" None
    (JArray [JString "video.deleted"]) 1
    (Some "tenant-y") None None None 0 0.
Definition hook_inactive : Webhook :=
  Webhook.mk "wh-off" "hook" "https://example.test/off" None
    (JArray [JString "video.deleted"]) 0
    (Some "tenant-x") None None None 0 0.
Definition hook_other_event : Webhook :=
  Webhook.mk "wh-folder" "hook" "https://example.test/folder" None
    (JArray [JString "folder.created"]) 1
    (Some "tenant-x") None None None 0 0.
Definition env_c : Env :=
  scenario [hook_a; hook_other_tenant; hook_inactive; hook_other_event]
           (λ _ _, mkExchange (inr "The operation was aborted due to timeout") 30000)
           no_fault.

(** Scenario B, and a variation: a subscription without secret, and one
    without secret whose custom headers name the signature header. *)
Definition hook_plain : Webhook := subscription "wh-plain" None None None.
Definition hook_forged : Webhook :=
  subscription "wh-forged" None
    (Some (<["X-Webhook-Signature" := "sha256=forged"]> ∅)) None.
Definition env_b : Env :=
  scenario [hook_plain; hook_forged] (λ _ _, mkExchange (inl (respond 200 "OK")) 5)
           no_fault.

(** A ledger with three attempts of one delivery and an attempt of another
    subscription. *)
Definition attempt_row (webhookId : string) (attempt : Z) (success : Z)
    (duration : option Z) (createdAt : Z) : WebhookDelivery :=
  Delivery.mk ("row-" +:+ pretty createdAt) webhookId "video.deleted"
    (Payload.mk "video.deleted" createdAt JNull webhookId)
    None None None duration success attempt None createdAt.

Definition ledger_d : list WebhookDelivery :=
  [attempt_row "wh-a" 1 0 (Some 5) 10;
   attempt_row "wh-b" 1 1 (Some 100) 20;
   attempt_row "wh-a" 2 0 (Some 6) 2015;
   attempt_row "wh-a" 3 1 (Some 8) 6025].

(** A ledger of 160 attempts of one subscription, 23 of them successful. *)
Definition ledger_tie : list WebhookDelivery :=
  ((λ i, attempt_row "wh-a" 1 1 (Some 1) (Z.of_nat i)) <$> seq 0 23)
  ++ ((λ i, attempt_row "wh-a" 1 0 (Some 1) (Z.of_nat i)) <$> seq 23 137).

(** A store whose entropy counts up from 0, and two create requests: one
    without secret and one that brings its own. *)
Definition store_d : StoreEnv :=
  mkStoreEnv (λ i, default Byte.x00 (Byte.of_N (N.of_nat i))) None "wh-new" 1000.

Definition create_plain : CreateBody.t :=
  CreateBody.mk (Some "hook") (Some "https://example.test/hook") None
    (Some (JArray [JString "video.deleted"])) None None None.

Definition create_with_secret : CreateBody.t :=
  CreateBody.mk (Some "hook") (Some "https://example.test/hook") (Some "mine")
    (Some (JArray [JString "video.deleted"])) None None None.

(** Doubles on which the two readings of [Math.round] are compared: ties,
    values next to ties, integers beyond 2^52, tiny and huge values, both
    signs, and the non-finite ones. *)
Definition rounding_samples : list float :=
  [0; -0; 0.5; -0.5; 1.5; -1.5; 2.5; -2.5; 0.75; -0.75; 312.5; 0.25; -0.25;
   4503599627370496; 4503599627370497; 4503599627370495.5; -4503599627370495.5;
   9007199254740992; -9007199254740992; 2251799813685247.5; -2251799813685247.5;
   123456789.5; -123456789.5; infinity; neg_infinity; nan;
   number 23 / number 160 * number 100 * number 100;
   number 1 / number 3; - (number 2 / number 3); number 1 / number 1000000007;
   ldshiftexp 1 4000; - ldshiftexp 1 4000; ldshiftexp 1 40; - ldshiftexp 1 40;
   next_down 0.5; - next_down 0.5; next_up 0.5; next_up 0; next_down 0]%float.

(** The environment of scenario A with a subscription store that is down. *)
Definition env_down : Env :=
  mkEnv (JSON_stringify env_a) (hmac_sha256_hex env_a) [hook_a]
        (Some "connection refused") (http env_a) no_fault
        (randomUUID env_a) (gen_random_uuid env_a).

(** A stand-in for [toISOString]. *)
Definition iso_stub (t : Z) : string := "t" +:+ pretty t.

Definition no_db_fault : DbFaults := mkDbFaults None None.


Definition patch_no_events : PatchBody.t :=
  PatchBody.mk None None None (Some (JArray [])) None None None None.

(** A PATCH body that gives a number as the events, and the table of
    scenario C after tenant X has sent it for its subscription to folder
    events. *)
Definition patch_bad_events : PatchBody.t :=
  PatchBody.mk None None None (Some (JNumber 5)) None None None None.

Definition env_bad : Env :=
  scenario (patch_webhook (λ _, true) no_db_fault 2000 (Some "tenant-x") "wh-folder"
              patch_bad_events (webhooks_table env_c)).2
           (http env_c) no_fault.

(** * Properties *)

(** ** The monad *)

Lemma bind_ok {A B} (m : M A) (f : A → M B) s a s' :
  m s = (Ok a, s') → (m ≫= f) s = f a s'.
Proof. intros H. unfold mbind, M_bind. by rewrite H. Qed.

Lemma bind_throw {A B} (m : M A) (f : A → M B) s e s' :
  m s = (Throw e, s') → (m ≫= f) s = (Throw e, s').
Proof. intros H. unfold mbind, M_bind. by rewrite H. Qed.

Lemma mapM_cons {A B} (f : A → M B) x l s :
  mapM f (x :: l) s =
  match f x s with
  | (Ok y, s1) =>
      match mapM f l s1 with
      | (Ok k, s2) => (Ok (y :: k), s2)
      | (Throw e, s2) => (Throw e, s2)
      end
  | (Throw e, s1) => (Throw e, s1)
  end.
Proof.
  simpl. unfold mbind, M_bind. destruct (f x s) as [[y | e] s1]; [| done].
  by destruct (mapM f l s1) as [[k | e] s2].
Qed.

(** ** The filter of the dispatcher *)

Lemma is_string_spec s x : is_string s x = true ↔ x = JString s.
Proof.
  destruct x; simpl; try (split; [discriminate | by intros [=]]).
  rewrite String.eqb_eq. split; [by intros -> | by intros [= ->]].
Qed.

(** On an array, [includes] is membership of the string. *)
Lemma includes_array items e :
  includes (JArray items) e = Ok true ↔ JString e ∈ items.
Proof.
  simpl. split.
  - intros [= Hex]. apply existsb_exists in Hex as (x & Hin & Hx).
    apply is_string_spec in Hx as ->. by apply list_elem_of_In.
  - intros Hin. f_equal. apply existsb_exists. exists (JString e).
    split; [by apply list_elem_of_In | by apply is_string_spec].
Qed.

(** A filter that does not throw is the filter of lists. *)
Lemma Array_filter_Ok {A} (p : A → Result bool) l kept :
  Array_filter p l = Ok kept →
  Forall (λ x, ∃ b, p x = Ok b) l ∧ kept = filter (λ x, p x = Ok true) l.
Proof.
  revert kept. induction l as [| x l IH]; intros kept; simpl.
  - intros [= <-]. by split.
  - destruct (p x) as [b | err] eqn:Hx; [| done].
    destruct (Array_filter p l) as [kept' | err]; [| done].
    destruct (IH kept' eq_refl) as [Hall ->]. intros [= <-].
    split; [constructor; [by exists b | done] |].
    destruct b.
    + by rewrite filter_cons_True.
    + by rewrite filter_cons_False by (by rewrite Hx).
Qed.

Lemma Array_filter_total {A} (p : A → Result bool) l :
  Forall (λ x, ∃ b, p x = Ok b) l →
  Array_filter p l = Ok (filter (λ x, p x = Ok true) l).
Proof.
  induction 1 as [| x l [b Hx] Hall IH]; simpl; [done |].
  rewrite Hx, IH. destruct b.
  - by rewrite filter_cons_True.
  - by rewrite filter_cons_False by (by rewrite Hx).
Qed.

(** One element on which the predicate throws makes the filter throw. *)
Lemma Array_filter_throws {A} (p : A → Result bool) l x err :
  x ∈ l → p x = Throw err → ∃ err', Array_filter p l = Throw err'.
Proof.
  intros Hin Hx. induction l as [| y l IH]; [by apply elem_of_nil in Hin |].
  simpl. apply elem_of_cons in Hin as [<- | Hin].
  - rewrite Hx. by eexists.
  - destruct (p y) as [b | err0]; [| by eexists].
    destruct (IH Hin) as [err' ->]. by eexists.
Qed.

Section DeliveryProperties.

Context (env : Env).

(** One invocation whose insert is accepted: it resolves, and its effects
    are one call, one request, one record and at most one timer. *)
Lemma deliverWebhook_accepted w e d n s :
  (∀ site, insert_fault env w n site = None) →
  ∃ r s',
    deliverWebhook env w e d n s = (Ok tt, s')
    ∧ clock s' = clock s + elapsed (http env w n)
    ∧ calls s' = calls s ++ [mkCall w e d n]
    ∧ ledger s' = ledger s ++ [r]
    ∧ attempt_record env w e d n (clock s) r
    ∧ timers s' = timers s ++ retry_timer env w e d n (clock s').
Proof.
  intros Hins.
  unfold deliverWebhook, retry_timer, try_catch, fetch,
    db_insert_delivery, when, mbind, M_bind; simpl.
  rewrite !Hins.
  assert (Hsucc := eq_refl (attempt_succeeds env w n)).
  unfold attempt_succeeds at 2 in Hsucc.
  destruct (outcome (http env w n)) as [resp | err]; simpl;
    [destruct (Response.ok resp) |];
    rewrite Hsucc; simpl;
    destruct (n <? maxRetries w); simpl;
    eexists _, _; (split; [reflexivity |]); simpl;
    rewrite ?app_nil_r; repeat split; simpl;
    rewrite ?Hsucc; try reflexivity; f_equal; lia.
Qed.

(** Whatever the collaborators do, an invocation records its call, puts
    exactly one request on the wire, ends when the exchange has settled,
    and arms at most one timer: for the next ordinal, [retry_wait n]
    milliseconds after it ended. *)
Lemma deliverWebhook_effects w e d n s :
  ∃ r s' new,
    deliverWebhook env w e d n s = (r, s')
    ∧ clock s' = clock s + elapsed (http env w n)
    ∧ calls s' = calls s ++ [mkCall w e d n]
    ∧ wire s' = wire s ++
        [let payload := Payload.mk e (clock s) d (Webhook.id w) in
         Request.mk (Webhook.url w) "POST" (request_headers env w e n payload)
           (JSON_stringify env payload) 30000]
    ∧ timers s' = timers s ++ new
    ∧ (new = [] ∨ new = [mkTimer (clock s' + retry_wait n) (retry_wait n)
                                 (mkCall w e d (n + 1))]).
Proof.
  unfold deliverWebhook, try_catch, fetch, db_insert_delivery, when,
    mbind, M_bind; simpl.
  destruct (outcome (http env w n)) as [resp | err]; simpl;
    [destruct (insert_fault env w n InTry); simpl;
     [| destruct (Response.ok resp); simpl] |];
    try destruct (insert_fault env w n InCatch); simpl;
    destruct (n <? maxRetries w); simpl;
    eexists _, _, _; (split; [reflexivity |]); simpl;
    split_and!; try reflexivity; try (symmetry; apply app_nil_r);
    first [by left | by right].
Qed.

(** *** The event loop on one pipeline *)

Lemma drain_idle fuel s : timers s = [] → drain env fuel s = (Ok tt, s).
Proof. intros H. destruct fuel; simpl; [done |]. by rewrite H. Qed.

Lemma set_timers_id s : set_timers (timers s) s = s.
Proof. by destruct s. Qed.

(** A single armed timer, with enough fuel for the ordinals up to the
    retry limit, runs its retry chain to the end. *)
Lemma drain_chain w e d fuel : ∀ n t dl s,
  ledger_accepts env w →
  timers s = [mkTimer t dl (mkCall w e d n)] →
  (Z.to_nat (maxRetries w - n) < fuel)%nat →
  ∃ rs s',
    drain env fuel s = (Ok tt, s')
    ∧ timers s' = []
    ∧ ledger s' = ledger s ++ rs
    ∧ retry_chain env w e d n t rs
    ∧ calls s' = calls s ++ (mkCall w e d <$> seqZ n (Z.of_nat (length rs))).
Proof.
  induction fuel as [| fuel IH]; intros n t dl s Hacc Ht Hfuel; [lia |].
  simpl. rewrite Ht. simpl.
  unfold fire, resume_at, settle, mbind, M_bind. simpl.
  destruct (deliverWebhook_accepted w e d n
              (set_clock t (set_timers [] s)) (Hacc n))
    as (r & s1 & Hrun & Hclock & Hcalls & Hledger & Hrec & Htimers).
  rewrite Hrun. simpl in *.
  unfold retry_timer in Htimers.
  destruct (negb (attempt_succeeds env w n) && (n <? maxRetries w)) eqn:Hretry.
  - apply andb_true_iff in Hretry as [Hfail Hlt].
    apply negb_true_iff in Hfail. apply Z.ltb_lt in Hlt.
    destruct (IH (n + 1) _ _ s1 Hacc Htimers) as
      (rs & s' & Hdrain & Hts & Hl & Hchain & Hc); [lia |].
    exists (r :: rs), s'. rewrite Hdrain. split_and!; try done.
    + rewrite Hl, Hledger. by rewrite <- app_assoc.
    + apply chain_retry; try done.
      by rewrite (record_createdAt _ _ _ _ _ _ _ Hrec), <- Hclock.
    + rewrite Hc, Hcalls, <- app_assoc.
      change (length (r :: rs)) with (S (length rs)).
      rewrite Nat2Z.inj_succ, (seqZ_cons n), Z.pred_succ by lia.
      reflexivity.
  - exists [r], s1. rewrite drain_idle by done. split_and!; try done.
    apply chain_stop; [done |].
    unfold retry_timer. by rewrite Hretry.
Qed.

(** A pipeline started when no timer is pending runs to quiescence, and
    its records form a retry chain from ordinal 1. *)
Lemma pipeline_chain w e d s :
  ledger_accepts env w →
  timers s = [] →
  ∃ rs s',
    pipeline env w e d s = (Ok tt, s')
    ∧ timers s' = []
    ∧ ledger s' = ledger s ++ rs
    ∧ retry_chain env w e d 1 (clock s) rs
    ∧ calls s' = calls s ++ (mkCall w e d <$> seqZ 1 (Z.of_nat (length rs))).
Proof.
  intros Hacc Hidle.
  unfold pipeline, settle, event_loop, mbind, M_bind.
  destruct (deliverWebhook_accepted w e d 1 s (Hacc 1))
    as (r & s1 & Hrun & Hclock & Hcalls & Hledger & Hrec & Htimers).
  rewrite Hrun. simpl. rewrite Hidle in Htimers. simpl in Htimers.
  pose proof (record_createdAt _ _ _ _ _ _ _ Hrec) as Hcreated.
  unfold retry_timer in Htimers.
  destruct (negb (attempt_succeeds env w 1) && (1 <? maxRetries w)) eqn:Hretry.
  - apply andb_true_iff in Hretry as [Hfail Hlt].
    apply negb_true_iff in Hfail. apply Z.ltb_lt in Hlt.
    destruct (drain_chain w e d
                (sum_list (invocations_left <$> timers s1)) 2 _ _ s1 Hacc Htimers)
      as (rs & s' & Hdrain & Hts & Hl & Hchain & Hc).
    { rewrite Htimers. unfold invocations_left. simpl. lia. }
    exists (r :: rs), s'. rewrite Hdrain. split_and!; try done.
    + rewrite Hl, Hledger. by rewrite <- app_assoc.
    + apply chain_retry; try done. by rewrite Hcreated, <- Hclock.
    + rewrite Hc, Hcalls, <- app_assoc.
      change (length (r :: rs)) with (S (length rs)).
      rewrite Nat2Z.inj_succ, (seqZ_cons 1), Z.pred_succ by lia.
      reflexivity.
  - exists [r], s1. rewrite drain_idle by done. split_and!; try done.
    apply chain_stop; [done |].
    unfold retry_timer. by rewrite Hretry.
Qed.

(** *** What a retry chain says about its records *)

Lemma retry_chain_attempts w e d n t rs :
  retry_chain env w e d n t rs →
  Delivery.attempt <$> rs = seqZ n (Z.of_nat (length rs)).
Proof.
  induction 1 as [n t r Hrec Hstop | n t r rs Hrec Hfail Hlt Hchain IH].
  - simpl. by rewrite (record_attempt _ _ _ _ _ _ _ Hrec).
  - change (length (r :: rs)) with (S (length rs)).
    rewrite Nat2Z.inj_succ, seqZ_cons, Z.pred_succ by lia.
    rewrite fmap_cons, IH. by rewrite (record_attempt _ _ _ _ _ _ _ Hrec).
Qed.

(** The chain ends at the first ordinal that succeeds or reaches the retry
    limit. *)
Lemma retry_chain_length w e d n t rs :
  retry_chain env w e d n t rs →
  ∀ N, n ≤ N →
    (∀ j, n ≤ j < N → attempt_succeeds env w j = false ∧ j < maxRetries w) →
    attempt_succeeds env w N = true ∨ maxRetries w ≤ N →
    Z.of_nat (length rs) = N - n + 1.
Proof.
  induction 1 as [n t r Hrec Hstop | n t r rs Hrec Hfail Hlt Hchain IH];
    intros N HnN Hbefore Hlast.
  - destruct (decide (n = N)) as [-> | Hne]; [simpl; lia |].
    destruct (Hbefore n) as [Hf Hl]; [lia |].
    unfold retry_timer in Hstop. rewrite Hf in Hstop.
    apply Z.ltb_lt in Hl. by rewrite Hl in Hstop.
  - assert (n ≠ N) by (intros ->; destruct Hlast; [congruence | lia]).
    change (length (r :: rs)) with (S (length rs)).
    rewrite Nat2Z.inj_succ, (IH N) by (try done; try lia; intros; apply Hbefore; lia).
    lia.
Qed.

(** Consecutive records have consecutive ordinals, and the later attempt
    started [retry_wait n] milliseconds after the earlier one, with ordinal
    [n], was recorded. *)
Lemma retry_chain_spacing w e d n t rs :
  retry_chain env w e d n t rs →
  ∀ i r r', rs !! i = Some r → rs !! S i = Some r' →
    Delivery.attempt r' = Delivery.attempt r + 1
    ∧ Payload.timestamp (Delivery.payload r') - Delivery.createdAt r
      = retry_wait (Delivery.attempt r).
Proof.
  induction 1 as [n t r0 Hrec Hstop | n t r0 rs Hrec Hfail Hlt Hchain IH];
    intros i r r' Hi HSi.
  - by destruct i.
  - destruct i as [| i]; [| by eapply IH].
    simpl in Hi, HSi. injection Hi as ->.
    rewrite (record_attempt _ _ _ _ _ _ _ Hrec).
    inversion Hchain as [? ? ? Hrec' | ? ? ? ? Hrec']; subst;
      simpl in HSi; injection HSi as ->;
      rewrite (record_attempt _ _ _ _ _ _ _ Hrec'),
        (record_payload _ _ _ _ _ _ _ Hrec'); simpl; lia.
Qed.

(** Every record but the last is a failure. *)
Lemma retry_chain_failures w e d n t rs :
  retry_chain env w e d n t rs →
  ∀ i r, rs !! i = Some r → (S i < length rs)%nat → Delivery.success r = 0.
Proof.
  induction 1 as [n t r0 Hrec Hstop | n t r0 rs Hrec Hfail Hlt Hchain IH];
    intros i r Hi Hlen.
  - simpl in Hlen. lia.
  - destruct i as [| i].
    + simpl in Hi. injection Hi as ->.
      by rewrite (record_success _ _ _ _ _ _ _ Hrec), Hfail.
    + simpl in Hi, Hlen. eapply IH; [done | lia].
Qed.

(** *** The retry scheduler *)

(** C2 (amended): when the ledger accepts the inserts and the retry limit
    [retryCount || 3] is at least 1, a pipeline produces records with the
    consecutive ordinals 1, 2, ...; their number is [min(k, maxRetries)]
    where [k] is the first ordinal whose HTTP attempt succeeds, and
    [maxRetries] if none up to the limit succeeds; after a failed attempt
    a retry is scheduled iff its ordinal is below the limit. *)
Theorem pipeline_attempt_records w e d s :
  ledger_accepts env w →
  1 ≤ maxRetries w →
  timers s = [] →
  ∃ rs s',
    pipeline env w e d s = (Ok tt, s')
    ∧ ledger s' = ledger s ++ rs
    ∧ Delivery.attempt <$> rs = seqZ 1 (Z.of_nat (length rs))
    ∧ (∀ k, 1 ≤ k → attempt_succeeds env w k = true →
         (∀ j, 1 ≤ j < k → attempt_succeeds env w j = false) →
         Z.of_nat (length rs) = Z.min k (maxRetries w))
    ∧ ((∀ j, 1 ≤ j ≤ maxRetries w → attempt_succeeds env w j = false) →
         Z.of_nat (length rs) = maxRetries w)
    ∧ (∀ n s1, attempt_succeeds env w n = false →
         ∃ new,
           timers (deliverWebhook env w e d n s1).2 = timers s1 ++ new
           ∧ (new ≠ [] ↔ n < maxRetries w)).
Proof.
  intros Hacc Hmax Hidle.
  destruct (pipeline_chain w e d s Hacc Hidle)
    as (rs & s' & Hrun & _ & Hledger & Hchain & _).
  exists rs, s'. split_and!; try done.
  - by eapply retry_chain_attempts.
  - intros k Hk Hok Hbefore.
    destruct (Z.le_gt_cases k (maxRetries w)) as [Hle | Hgt].
    + rewrite Z.min_l by done.
      rewrite (retry_chain_length _ _ _ _ _ _ Hchain k); [lia | lia | | by left].
      intros j Hj. split; [apply Hbefore |]; lia.
    + rewrite Z.min_r by lia.
      rewrite (retry_chain_length _ _ _ _ _ _ Hchain (maxRetries w));
        [lia | lia | | right; lia].
      intros j Hj. split; [apply Hbefore |]; lia.
  - intros Hnone.
    rewrite (retry_chain_length _ _ _ _ _ _ Hchain (maxRetries w));
      [lia | lia | | right; lia].
    intros j Hj. split; [apply Hnone |]; lia.
  - intros n s1 Hfail.
    destruct (deliverWebhook_accepted w e d n s1 (Hacc n))
      as (r & s1' & Hrun1 & _ & _ & _ & _ & Htimers).
    rewrite Hrun1. simpl. eexists. split; [done |].
    unfold retry_timer. rewrite Hfail. simpl.
    destruct (Z.ltb_spec n (maxRetries w)); split; (done || lia).
Qed.

(** The delay of the retry timer is the backoff [2^n * 1000] as long as
    the host can hold it, that is for the ordinals up to 21. *)
Lemma retry_wait_backoff n : 1 ≤ n ≤ 21 → retry_wait n = 2 ^ n * 1000.
Proof.
  intros Hn. unfold retry_wait, timer_duration, TIMEOUT_MAX.
  assert (2 ^ 1 ≤ 2 ^ n) by (apply Z.pow_le_mono_r; lia).
  assert (2 ^ n ≤ 2 ^ 21) by (apply Z.pow_le_mono_r; lia).
  change (2 ^ 1) with 2 in *. change (2 ^ 21) with 2097152 in *.
  destruct (Z.leb_spec 1 (2 ^ n * 1000)); [| lia].
  destruct (Z.leb_spec (2 ^ n * 1000) 2147483647); [done | lia].
Qed.

(** From ordinal 22 on the backoff exceeds [TIMEOUT_MAX] and the timer is
    armed for the next millisecond. *)
Lemma retry_wait_overflow n : 22 ≤ n → retry_wait n = 1.
Proof.
  intros Hn. unfold retry_wait, timer_duration, TIMEOUT_MAX.
  assert (2 ^ 22 ≤ 2 ^ n) by (apply Z.pow_le_mono_r; lia).
  change (2 ^ 22) with 4194304 in *.
  destruct (Z.leb_spec (2 ^ n * 1000) 2147483647); [lia |].
  by rewrite andb_false_r.
Qed.

(** After attempt [n] the timer for the retry, if one is armed, has the
    delay [retry_wait n], which depends on nothing but the ordinal; in a
    pipeline, the attempt after a failed attempt [n] starts that long after
    that attempt was recorded. *)
Lemma retry_timer_delay w e d :
  (∀ n s,
     ∃ new,
       timers (deliverWebhook env w e d n s).2 = timers s ++ new
       ∧ ∀ t, t ∈ new →
           delay t = retry_wait n
           ∧ fire_at t = clock (deliverWebhook env w e d n s).2 + retry_wait n)
  ∧ (∀ s, ledger_accepts env w → timers s = [] →
       ∃ rs s',
         pipeline env w e d s = (Ok tt, s')
         ∧ ledger s' = ledger s ++ rs
         ∧ ∀ i r r', rs !! i = Some r → rs !! S i = Some r' →
             Delivery.attempt r' = Delivery.attempt r + 1
             ∧ Payload.timestamp (Delivery.payload r') - Delivery.createdAt r
               = retry_wait (Delivery.attempt r)).
Proof.
  split.
  - intros n s.
    destruct (deliverWebhook_effects w e d n s)
      as (r & s' & new & Hrun & _ & _ & _ & Htimers & Hnew).
    rewrite Hrun. simpl. exists new. split; [done |].
    intros t Ht. destruct Hnew as [-> | ->].
    + by apply elem_of_nil in Ht.
    + by apply list_elem_of_singleton in Ht as ->.
  - intros s Hacc Hidle.
    destruct (pipeline_chain w e d s Hacc Hidle)
      as (rs & s' & Hrun & _ & Hledger & Hchain & _).
    exists rs, s'. split_and!; try done.
    by eapply retry_chain_spacing.
Qed.

(** Firing a timer starts its callback at the instant the timer was armed
    for; the promise of the callback is dropped, so nothing is raised. *)
Lemma fire_effects t s :
  let c := callback t in
  ∃ s',
    fire env t s = (Ok tt, s')
    ∧ calls s' = calls s ++ [c]
    ∧ wire s' = wire s ++
        [let payload := Payload.mk (call_eventType c) (fire_at t) (call_data c)
                          (Webhook.id (call_webhook c)) in
         Request.mk (Webhook.url (call_webhook c)) "POST"
           (request_headers env (call_webhook c) (call_eventType c)
              (call_attempt c) payload)
           (JSON_stringify env payload) 30000].
Proof.
  destruct t as [at_ dl [w e d n]]. simpl.
  unfold fire, resume_at, settle, mbind, M_bind. simpl.
  destruct (deliverWebhook_effects w e d n (set_clock at_ s))
    as (r & s' & new & Hrun & _ & Hcalls & Hwire & _).
  rewrite Hrun. simpl. by exists s'.
Qed.

(** C9 (amended): the timer armed after attempt [n] captures the
    subscription, the event type and the data of that attempt and the
    ordinal [n + 1]; when it fires, [deliverWebhook] is invoked with them
    and builds a new payload, whose timestamp is the instant of the retry
    (the delay [retry_wait n] of the timer after attempt [n] ended), not the
    one of the first attempt. *)
Theorem retry_rebuilds_payload w e d n s :
  ∃ new,
    timers (deliverWebhook env w e d n s).2 = timers s ++ new
    ∧ ∀ t, t ∈ new →
        callback t = mkCall w e d (n + 1)
        ∧ fire_at t = clock s + elapsed (http env w n) + retry_wait n
        ∧ ∀ s1, ∃ s2,
            fire env t s1 = (Ok tt, s2)
            ∧ calls s2 = calls s1 ++ [mkCall w e d (n + 1)]
            ∧ wire s2 = wire s1 ++
                [let payload := Payload.mk e (fire_at t) d (Webhook.id w) in
                 Request.mk (Webhook.url w) "POST"
                   (request_headers env w e (n + 1) payload)
                   (JSON_stringify env payload) 30000].
Proof.
  destruct (deliverWebhook_effects w e d n s)
    as (r & s' & new & Hrun & Hclock & _ & _ & Htimers & Hnew).
  rewrite Hrun. simpl. exists new. split; [done |].
  intros t Ht. destruct Hnew as [-> | ->].
  - by apply elem_of_nil in Ht.
  - apply list_elem_of_singleton in Ht as ->. simpl.
    split_and!; [done | lia |].
    intros s1. apply (fire_effects (mkTimer _ _ (mkCall w e d (n + 1)))).
Qed.

End DeliveryProperties.

(** *** Scenarios of the retry scheduler *)

Lemma pipeline_attempt_records_witness :
  ledger_accepts env_a hook_a
  ∧ 1 ≤ maxRetries hook_a
  ∧ timers world0 = []
  ∧ Z.of_nat (length (ledger (pipeline env_a hook_a "video.deleted" JNull world0).2))
    = maxRetries hook_a.
Proof.
  assert (Hacc : ledger_accepts env_a hook_a) by (intros ? ?; reflexivity).
  assert (Hmax : 1 ≤ maxRetries hook_a) by (vm_compute; discriminate).
  split_and!; [done .. |].
  destruct (pipeline_attempt_records env_a hook_a "video.deleted" JNull world0
              Hacc Hmax eq_refl)
    as (rs & s' & Hrun & Hledger & _ & _ & Hnone & _).
  rewrite Hrun. simpl. rewrite Hledger. simpl.
  apply Hnone. intros j _. reflexivity.
Defined.

(** With [retryCount = -1] and an endpoint that always fails there is one
    record, not [maxRetries]; when the insert of a successful first response
    raises, the attempt is recorded as failed and retried, so there are two
    records although the first HTTP attempt succeeded. *)
Lemma pipeline_attempt_records_counterexample :
  ((∀ j, attempt_succeeds env_neg hook_neg j = false)
   ∧ Z.of_nat (length (ledger (pipeline env_neg hook_neg "video.deleted" JNull world0).2))
     ≠ maxRetries hook_neg)
  ∧ (attempt_succeeds env_fault hook_a 1 = true
     ∧ Z.of_nat (length (ledger (pipeline env_fault hook_a "video.deleted" JNull world0).2))
       ≠ Z.min 1 (maxRetries hook_a)).
Proof. vm_compute. split_and!; try done; discriminate. Qed.

(** Scenario A: the retries follow the failed attempts after 2 s and
    4 s. *)
Lemma retry_timer_delay_scenario :
  (λ r, (Delivery.attempt r, Payload.timestamp (Delivery.payload r),
         Delivery.createdAt r))
    <$> ledger (pipeline env_a hook_a "video.deleted" JNull world0).2
  = [(1, 0, 5); (2, 2005, 2010); (3, 6010, 6015)].
Proof. vm_compute. reflexivity. Qed.

(** C6: a subscription stored with [retryCount = 23] whose endpoint always
    answers 500 after 5 ms gets 23 attempts.  Up to attempt 22 every retry
    follows the failed attempt [n] after [2^n * 1000] milliseconds; after
    attempt 22 the code asks for a timer of [2^22 * 1000 = 4194304000]
    milliseconds, more than the host's timers hold, and attempt 23 starts
    one millisecond after attempt 22 was recorded. *)
Theorem retry_delay_overflow :
  let rs := ledger (pipeline env_big hook_big "video.deleted" JNull world0).2 in
  maxRetries hook_big = 23
  ∧ Delivery.attempt <$> rs = seqZ 1 23
  ∧ Forall (λ r, Delivery.success r = 0) rs
  ∧ (∀ i r r', (i < 21)%nat → rs !! i = Some r → rs !! S i = Some r' →
       Payload.timestamp (Delivery.payload r') - Delivery.createdAt r
       = 2 ^ Delivery.attempt r * 1000)
  ∧ (∀ r r', rs !! 21%nat = Some r → rs !! 22%nat = Some r' →
       Delivery.attempt r = 22
       ∧ Delivery.attempt r' = 23
       ∧ 2 ^ Delivery.attempt r * 1000 = 4194304000
       ∧ Payload.timestamp (Delivery.payload r') - Delivery.createdAt r = 1)
  ∧ ∀ s t,
      t ∈ timers (deliverWebhook env_big hook_big "video.deleted" JNull 22 s).2 →
      t ∈ timers s ∨ (callback t = mkCall hook_big "video.deleted" JNull 23
                      ∧ delay t = 1).
Proof.
  assert (Hacc : ledger_accepts env_big hook_big) by (intros ? ?; reflexivity).
  destruct (retry_timer_delay env_big hook_big "video.deleted" JNull)
    as [_ Hgap].
  destruct (Hgap world0 Hacc eq_refl) as (rs & s' & Hrun & Hledger & Hrs).
  cbv zeta. rewrite Hrun. cbn [snd]. rewrite Hledger. cbn [ledger world0 app].
  assert (Hord : Delivery.attempt <$> rs = seqZ 1 23).
  { assert (rs = ledger (pipeline env_big hook_big "video.deleted" JNull world0).2)
      as -> by (rewrite Hrun; simpl; by rewrite Hledger).
    vm_compute. reflexivity. }
  assert (Hfail : Forall (λ r, Delivery.success r = 0) rs).
  { assert (rs = ledger (pipeline env_big hook_big "video.deleted" JNull world0).2)
      as -> by (rewrite Hrun; simpl; by rewrite Hledger).
    apply (bool_decide_unpack _). vm_compute. exact I. }
  assert (Hat : ∀ i r, rs !! i = Some r → Delivery.attempt r = Z.of_nat i + 1).
  { intros i r Hi.
    assert (Hi' : (Delivery.attempt <$> rs) !! i = Some (Delivery.attempt r))
      by (by rewrite list_lookup_fmap, Hi).
    rewrite Hord in Hi'. apply lookup_seqZ in Hi'. lia. }
  split_and!; [reflexivity | done | done | | |].
  - intros i r r' Hi Hr Hr'. destruct (Hrs i r r' Hr Hr') as [_ ->].
    apply retry_wait_backoff. rewrite (Hat i r Hr). lia.
  - intros r r' Hr Hr'. destruct (Hrs _ r r' Hr Hr') as [Hnext Hwait].
    pose proof (Hat _ r Hr) as Hn. simpl in Hn.
    split_and!; [lia | lia | by rewrite Hn |].
    rewrite Hwait. apply retry_wait_overflow. lia.
  - intros s t Ht.
    destruct (deliverWebhook_effects env_big hook_big "video.deleted" JNull 22 s)
      as (r & s1 & new & Hrun' & _ & _ & _ & Htimers & Hnew).
    rewrite Hrun' in Ht. clear Hrun'. simpl in Ht. rewrite Htimers in Ht.
    apply elem_of_app in Ht as [Ht | Ht]; [by left |]. right.
    destruct Hnew as [-> | ->]; [exfalso; exact (proj1 (elem_of_nil t) Ht) |].
    apply list_elem_of_singleton in Ht as ->.
    split; [reflexivity |]. cbn [delay]. apply retry_wait_overflow. lia.
Qed.

(** In scenario A the second attempt carries a payload built 2005 ms after
    the first one: the payloads of one delivery differ. *)
Lemma retry_rebuilds_payload_counterexample :
  ∃ r1 r2 rest,
    ledger (pipeline env_a hook_a "video.deleted" JNull world0).2 = r1 :: r2 :: rest
    ∧ Delivery.attempt r1 = 1
    ∧ Delivery.attempt r2 = 2
    ∧ Payload.timestamp (Delivery.payload r1) = 0
    ∧ Payload.timestamp (Delivery.payload r2) = 2005
    ∧ Delivery.payload r2 ≠ Delivery.payload r1.
Proof.
  eexists _, _, _. split; [vm_compute; reflexivity |].
  split_and!; try reflexivity. intros H. by inversion H.
Qed.


(** ** The dispatcher *)

Section DispatchProperties.

Context (env : Env).

(** An invocation only ever appends to the ledger. *)
Lemma deliverWebhook_ledger w e d n s :
  ∃ rows, ledger (deliverWebhook env w e d n s).2 = ledger s ++ rows.
Proof.
  unfold deliverWebhook, try_catch, fetch, db_insert_delivery, when,
    mbind, M_bind; simpl.
  destruct (outcome (http env w n)) as [resp | err]; simpl;
    [destruct (insert_fault env w n InTry); simpl;
     [| destruct (Response.ok resp); simpl] |];
    try destruct (insert_fault env w n InCatch); simpl;
    destruct (n <? maxRetries w); simpl;
    first [by exists [] ; rewrite app_nil_r | by eexists [_]].
Qed.

(** The promise of an invocation can reject: when [fetch] rejects and the
    insert of the failure record raises as well. *)
Lemma deliverWebhook_rejects w e d n s err msg :
  outcome (http env w n) = inr err →
  insert_fault env w n InCatch = Some msg →
  (deliverWebhook env w e d n s).1 = Throw msg.
Proof.
  intros Hout Hins.
  unfold deliverWebhook, try_catch, fetch, db_insert_delivery, mbind, M_bind.
  simpl. by rewrite Hout, Hins.
Qed.

(** The first invocations started by [map]: each runs from the instant of
    the dispatch, settles when its exchange does, and is turned into a
    value whether it resolved or rejected. *)
Lemma start_deliveries e d t0 : ∀ ws s,
  ∃ rs s',
    mapM (start t0) ((λ w, deliverWebhook env w e d 1) <$> ws) s = (Ok rs, s')
    ∧ rs.*2 = (λ w, t0 + elapsed (http env w 1)) <$> ws
    ∧ calls s' = calls s ++ ((λ w, mkCall w e d 1) <$> ws)
    ∧ (∀ x, x ∈ ledger s → x ∈ ledger s')
    ∧ (∀ w, w ∈ ws → ledger_accepts env w →
         ∃ r, r ∈ ledger s' ∧ attempt_record env w e d 1 t0 r).
Proof.
  induction ws as [| w ws IH]; intros s.
  - exists [], s. simpl. split_and!; try done.
    + by rewrite app_nil_r.
    + intros w Hw. by apply elem_of_nil in Hw.
  - rewrite fmap_cons, mapM_cons. unfold start at 1.
    destruct (deliverWebhook_effects env w e d 1 (set_clock t0 s))
      as (r & s1 & new & Hrun & Hclock & Hcalls & _).
    destruct (deliverWebhook_ledger w e d 1 (set_clock t0 s)) as [rows Hrows].
    rewrite Hrun in Hrows |- *. simpl in Hclock, Hcalls, Hrows.
    destruct (IH s1) as (rs & s' & Hmap & Htimes & Hcalls' & Hmono & Hrec).
    rewrite Hmap.
    eexists _, s'. split; [reflexivity |]. split_and!.
    + rewrite !fmap_cons. simpl. by rewrite Htimes, Hclock.
    + by rewrite Hcalls', Hcalls, <- app_assoc.
    + intros x Hx. apply Hmono. rewrite Hrows. apply elem_of_app. by left.
    + intros w' Hw' Hacc. apply elem_of_cons in Hw' as [-> | Hw'].
      * destruct (deliverWebhook_accepted env w e d 1 (set_clock t0 s) (Hacc 1))
          as (r1 & s1' & Hrun' & _ & _ & Hledger & Hr1 & _).
        rewrite Hrun in Hrun'. injection Hrun' as _ <-.
        exists r1. split; [| done].
        apply Hmono. rewrite Hledger. apply elem_of_app. right. by left.
      * by apply Hrec.
Qed.

(** When the subscription query answers and the filter does not throw,
    [triggerEvent] resolves after it has started one invocation per
    subscription the filter kept and all of them have settled. *)
Lemma triggerEvent_answered e d uid s ws :
  select_fault env = None →
  matching env e uid = Ok ws →
  ∃ s',
    triggerEvent env e d uid s = (Ok tt, s')
    ∧ clock s' = foldr Z.max (clock s)
                   ((λ w, clock s + elapsed (http env w 1)) <$> ws)
    ∧ calls s' = calls s ++ ((λ w, mkCall w e d 1) <$> ws)
    ∧ (∀ w, w ∈ ws → ledger_accepts env w →
         ∃ r, r ∈ ledger s' ∧ attempt_record env w e d 1 (clock s) r).
Proof.
  intros Hsel Hws.
  assert (Hselect : select_active_webhooks env uid s
                    = (Ok (filter (λ w, Webhook.active w = 1
                                        ∧ Webhook.userId w = Some uid)
                                  (webhooks_table env)), s)).
  { unfold select_active_webhooks. by rewrite Hsel. }
  unfold triggerEvent, try_catch.
  rewrite (bind_ok _ _ _ _ _ Hselect).
  rewrite (bind_ok _ _ s ws s) by (unfold sync; by rewrite <- Hws).
  set (s0 := add_log (mkLog Info ("Triggering " +:+ pretty (length ws)
                                  +:+ " webhooks for event: " +:+ e)) s).
  rewrite (bind_ok _ _ s tt s0) by reflexivity.
  destruct (start_deliveries e d (clock s) ws s0)
    as (rs & s' & Hmap & Htimes & Hcalls & _ & Hrec).
  unfold Promise_allSettled.
  rewrite (bind_ok _ _ s0 (rs.*1) (set_clock (foldr Z.max (clock s) (rs.*2)) s')).
  2:{ rewrite (bind_ok _ _ s0 (clock s) s0) by reflexivity.
      by rewrite (bind_ok _ _ _ _ _ Hmap). }
  eexists. split; [reflexivity |]. simpl.
  split_and!; [by rewrite Htimes | done | done].
Qed.

(** X6: when the subscription query raises, [triggerEvent] resolves after
    logging one error: nothing is sent, recorded or scheduled. *)
Lemma triggerEvent_store_down e d uid s msg :
  select_fault env = Some msg →
  triggerEvent env e d uid s
  = (Ok tt, add_log (mkLog Error "Failed to trigger webhooks") s).
Proof.
  intros Hsel.
  unfold triggerEvent, try_catch, select_active_webhooks, mbind, M_bind.
  by rewrite Hsel.
Qed.

(** When the filter throws, the dispatch ends the same way. *)
Lemma triggerEvent_filter_throws e d uid s msg :
  select_fault env = None →
  matching env e uid = Throw msg →
  triggerEvent env e d uid s
  = (Ok tt, add_log (mkLog Error "Failed to trigger webhooks") s).
Proof.
  intros Hsel Hws.
  unfold triggerEvent, try_catch, select_active_webhooks, sync, mbind, M_bind.
  rewrite Hsel. unfold matching in Hws. by rewrite Hws.
Qed.

(** The subscriptions the filter keeps when the events of the tenant's
    active subscriptions are arrays. *)
Lemma matching_arrays e uid :
  (∀ w, w ∈ webhooks_table env → Webhook.active w = 1 →
        Webhook.userId w = Some uid → ∃ items, Webhook.events w = JArray items) →
  matching env e uid
  = Ok (filter (λ w, Webhook.active w = 1 ∧ Webhook.userId w = Some uid
                     ∧ includes (Webhook.events w) e = Ok true)
               (webhooks_table env)).
Proof.
  intros Harrays. unfold matching.
  rewrite Array_filter_total.
  - f_equal. rewrite list_filter_filter. apply list_filter_iff. intros w. tauto.
  - apply Forall_forall. intros w Hw.
    apply list_elem_of_filter in Hw as [[Hactive Howner] Hw].
    destruct (Harrays w Hw Hactive Howner) as [items ->]. by eexists.
Qed.

(** The invocations a dispatch starts are those for the subscriptions the
    filter kept; there are none when the query or the filter raises. *)
Lemma triggerEvent_started e d uid s :
  ∃ started,
    calls (triggerEvent env e d uid s).2
    = calls s ++ ((λ w, mkCall w e d 1) <$> started)
    ∧ (started = [] ∨ select_fault env = None ∧ matching env e uid = Ok started).
Proof.
  destruct (select_fault env) as [msg |] eqn:Hsel.
  { exists []. split; [| by left].
    unfold triggerEvent, try_catch, select_active_webhooks, mbind, M_bind.
    rewrite Hsel. simpl. by rewrite app_nil_r. }
  destruct (matching env e uid) as [ws | msg] eqn:Hws.
  - destruct (triggerEvent_answered e d uid s ws Hsel Hws)
      as (s' & Hrun & _ & Hcalls & _).
    exists ws. rewrite Hrun. split; [done | by right].
  - exists []. rewrite (triggerEvent_filter_throws e d uid s msg Hsel Hws). simpl.
    rewrite app_nil_r. split; [done | by left].
Qed.

(** C1 (amended): every pipeline [triggerEvent] starts is for a
    subscription of the table that is active, owned by the tenant and, its
    events being an array, has the event type in it: other tenants'
    subscriptions, inactive ones and ones not subscribed to the event type
    get none.  When the subscription query answers and the events of the
    tenant's active subscriptions are arrays, the pipelines started are
    exactly these subscriptions, one pipeline each. *)
Theorem triggerEvent_starts_matching e d uid s :
  ∃ started,
    calls (triggerEvent env e d uid s).2
    = calls s ++ ((λ w, mkCall w e d 1) <$> started)
    ∧ (∀ w, w ∈ started →
         w ∈ webhooks_table env ∧ Webhook.active w = 1
         ∧ Webhook.userId w = Some uid
         ∧ ∀ items, Webhook.events w = JArray items → JString e ∈ items)
    ∧ (select_fault env = None →
       (∀ w, w ∈ webhooks_table env → Webhook.active w = 1 →
             Webhook.userId w = Some uid →
             ∃ items, Webhook.events w = JArray items) →
       started = filter (λ w, Webhook.active w = 1 ∧ Webhook.userId w = Some uid
                              ∧ includes (Webhook.events w) e = Ok true)
                        (webhooks_table env)
       ∧ ∀ w, w ∈ started ↔
              w ∈ webhooks_table env ∧ Webhook.active w = 1
              ∧ Webhook.userId w = Some uid
              ∧ ∃ items, Webhook.events w = JArray items ∧ JString e ∈ items).
Proof.
  destruct (triggerEvent_started e d uid s) as (started & Hcalls & Hstarted).
  exists started. split_and!; [done | |].
  - destruct Hstarted as [-> | [_ Hws]];
      [intros w Hw; by apply elem_of_nil in Hw |].
    unfold matching in Hws. apply Array_filter_Ok in Hws as [_ ->].
    intros w Hw. apply list_elem_of_filter in Hw as [Hinc Hw].
    apply list_elem_of_filter in Hw as [[Hactive Howner] Hw].
    split_and!; try done. intros items Hitems.
    apply includes_array. by rewrite <- Hitems.
  - intros Hsel Harrays.
    assert (Hexact : started
              = filter (λ w, Webhook.active w = 1 ∧ Webhook.userId w = Some uid
                             ∧ includes (Webhook.events w) e = Ok true)
                       (webhooks_table env)).
    { pose proof (matching_arrays e uid Harrays) as Hws.
      destruct Hstarted as [-> | [_ Hws']]; [| congruence].
      destruct (triggerEvent_answered e d uid s _ Hsel Hws)
        as (s' & Hrun & _ & Hcalls' & _).
      rewrite Hrun in Hcalls. simpl in Hcalls. rewrite Hcalls' in Hcalls.
      apply app_inv_head in Hcalls. simpl in Hcalls.
      apply fmap_nil_inv in Hcalls. by rewrite Hcalls. }
    split; [done |]. rewrite Hexact.
    intros w. rewrite list_elem_of_filter. split.
    + intros [(Hactive & Howner & Hinc) Hw].
      destruct (Harrays w Hw Hactive Howner) as [items Hitems].
      split_and!; try done. exists items. split; [done |].
      apply includes_array. by rewrite <- Hitems.
    + intros (Hw & Hactive & Howner & items & Hitems & Hin).
      split_and!; try done. rewrite Hitems. by apply includes_array.
Qed.

(** C5: whatever the stores and the transport do, [triggerEvent] resolves;
    it never raises to its caller. *)
Theorem triggerEvent_never_raises e d uid s :
  (triggerEvent env e d uid s).1 = Ok tt.
Proof.
  unfold triggerEvent, try_catch.
  match goal with
  | |- (match ?body s with _ => _ end).1 = _ =>
      destruct (body s) as [[[] | msg] s']
  end; reflexivity.
Qed.


End DispatchProperties.

(** *** Scenarios of the dispatcher *)

(** Scenario C: of the four subscriptions only tenant X's active one for
    the event gets a pipeline; tenant Y's gets none. *)
Lemma triggerEvent_starts_matching_witness :
  select_fault env_c = None
  ∧ (∀ w, w ∈ webhooks_table env_c → Webhook.active w = 1 →
          Webhook.userId w = Some "tenant-x" →
          ∃ items, Webhook.events w = JArray items)
  ∧ calls (triggerEvent env_c "video.deleted" JNull "tenant-x" world0).2
    = [mkCall hook_a "video.deleted" JNull 1].
Proof.
  assert (Harrays : ∀ w, w ∈ webhooks_table env_c → Webhook.active w = 1 →
            Webhook.userId w = Some "tenant-x" →
            ∃ items, Webhook.events w = JArray items).
  { intros w Hw _ _. cbn in Hw.
    repeat (apply elem_of_cons in Hw as [-> | Hw]; [by eexists |]).
    by apply elem_of_nil in Hw. }
  split_and!; [reflexivity | done |].
  destruct (triggerEvent_starts_matching env_c "video.deleted" JNull "tenant-x"
              world0) as (started & Hcalls & _ & Hexact).
  destruct (Hexact eq_refl Harrays) as [-> _].
  exact Hcalls.
Defined.

(** Two dispatches that start no pipeline although a subscription
    matches.  When the subscription query raises, none starts although the
    table holds a subscription that is active, owned by the tenant and
    subscribed to the event.  And after a PATCH by the tenant has stored the
    number 5 as the events of another of its subscriptions, [includes]
    throws inside the filter and, again, no pipeline starts for the
    subscription that matches. *)
Lemma triggerEvent_starts_matching_counterexample :
  (hook_a ∈ webhooks_table env_down
   ∧ Webhook.active hook_a = 1
   ∧ Webhook.userId hook_a = Some "tenant-x"
   ∧ Webhook.events hook_a = JArray [JString "video.deleted"]
   ∧ calls (triggerEvent env_down "video.deleted" JNull "tenant-x" world0).2 = [])
  ∧ (select_fault env_bad = None
     ∧ webhooks_table env_bad
       = (patch_webhook (λ _, true) no_db_fault 2000 (Some "tenant-x") "wh-folder"
            patch_bad_events (webhooks_table env_c)).2
     ∧ Webhook.events <$> webhooks_table env_bad
       = [JArray [JString "video.deleted"]; JArray [JString "video.deleted"];
          JArray [JString "video.deleted"]; JNumber 5]
     ∧ hook_a ∈ webhooks_table env_bad
     ∧ calls (triggerEvent env_bad "video.deleted" JNull "tenant-x" world0).2 = []).
Proof.
  split; split_and!; try (by left); try reflexivity; vm_compute; reflexivity.
Qed.



(** ** The signer *)

Section SignerProperties.

Context (env : Env).

Lemma default_headers_unsigned w e n :
  default_headers env w e n !! "X-Webhook-Signature" = None.
Proof. unfold default_headers. by rewrite !lookup_insert_ne, lookup_empty. Qed.

(** With a truthy secret the signature is the last assignment to the
    header object. *)
Lemma request_headers_signed w e n payload S :
  Webhook.secret w = Some S →
  S ≠ "" →
  request_headers env w e n payload !! "X-Webhook-Signature"
  = Some (generateSignature env payload S).
Proof.
  intros Hsecret Hne. unfold request_headers. rewrite Hsecret. simpl.
  apply String.eqb_neq in Hne. rewrite Hne. simpl.
  by rewrite lookup_insert_eq.
Qed.

(** C3: with a non-empty secret [S], the request of every attempt carries
    [X-Webhook-Signature: sha256=<hex>], where [<hex>] is the HMAC-SHA-256
    digest keyed with [S] of the very string sent as the body of that
    request; custom headers cannot replace it. *)
Theorem signature_covers_wire_body w e d n s S :
  Webhook.secret w = Some S →
  S ≠ "" →
  ∃ req,
    wire (deliverWebhook env w e d n s).2 = wire s ++ [req]
    ∧ Request.headers req !! "X-Webhook-Signature"
      = Some ("sha256=" +:+ hmac_sha256_hex env S (Request.body req)).
Proof.
  intros Hsecret Hne.
  destruct (deliverWebhook_effects env w e d n s)
    as (r & s' & new & Hrun & _ & _ & Hwire & _).
  rewrite Hrun. eexists. split; [exact Hwire |]. simpl.
  by rewrite (request_headers_signed _ _ _ _ S).
Qed.

(** C4 (amended): without a secret the service adds no signature header:
    the request carries [X-Webhook-Signature] exactly when the
    subscription's custom headers have that key, with their value. *)
Theorem unsigned_request_headers w e d n s :
  truthy (Webhook.secret w) = false →
  ∃ req,
    wire (deliverWebhook env w e d n s).2 = wire s ++ [req]
    ∧ Request.headers req !! "X-Webhook-Signature"
      = default ∅ (Webhook.headers w) !! "X-Webhook-Signature".
Proof.
  intros Hfalsy.
  destruct (deliverWebhook_effects env w e d n s)
    as (r & s' & new & Hrun & _ & _ & Hwire & _).
  rewrite Hrun. eexists. split; [exact Hwire |]. simpl.
  unfold request_headers.
  destruct (Webhook.secret w) as [S |]; [rewrite Hfalsy |];
    apply lookup_union_l, default_headers_unsigned.
Qed.

End SignerProperties.

(** *** Scenarios of the signer *)

Lemma signature_covers_wire_body_witness :
  Webhook.secret hook_a = Some "s3cr3t"
  ∧ "s3cr3t" ≠ ""
  ∧ ∃ req,
      wire (deliverWebhook env_a hook_a "video.deleted" JNull 1 world0).2 = [req]
      ∧ Request.headers req !! "X-Webhook-Signature"
        = Some ("sha256=" +:+ hmac_sha256_hex env_a "s3cr3t" (Request.body req)).
Proof.
  split_and!; [reflexivity | discriminate |].
  apply (signature_covers_wire_body env_a hook_a "video.deleted" JNull 1 world0 "s3cr3t");
    [reflexivity | discriminate].
Defined.

(** A subscription without secret whose custom headers contain
    [X-Webhook-Signature]: the request carries that header. *)
Lemma unsigned_request_counterexample :
  truthy (Webhook.secret hook_forged) = false
  ∧ (λ req, Request.headers req !! "X-Webhook-Signature")
      <$> wire (deliverWebhook env_b hook_forged "video.deleted" JNull 1 world0).2
    = [Some "sha256=forged"].
Proof. vm_compute. done. Qed.

(** Scenario B: no secret and no custom headers, no signature header. *)
Lemma unsigned_request_headers_witness :
  truthy (Webhook.secret hook_plain) = false
  ∧ ∃ req,
      wire (deliverWebhook env_b hook_plain "video.deleted" JNull 1 world0).2 = [req]
      ∧ Request.headers req !! "X-Webhook-Signature" = None.
Proof.
  split; [reflexivity |].
  apply (unsigned_request_headers env_b hook_plain "video.deleted" JNull 1 world0).
  reflexivity.
Defined.

(** ** The delivery ledger *)

#[global] Instance newer_first_total : Total newer_first.
Proof. intros a b. unfold newer_first. lia. Qed.

#[global] Instance newer_first_trans : Transitive newer_first.
Proof. intros a b c. unfold newer_first. lia. Qed.

Lemma round_half_up_samples :
  round_half_up <$> rounding_samples = round_half_up_SF <$> rounding_samples.
Proof. vm_compute. reflexivity. Qed.

Lemma nearest_hundredth_upto_limit : nearest_hundredth_upto 1000 = true.
Proof. vm_cast_no_check (eq_refl true). Qed.

Lemma nearest_hundredth_upto_sound limit :
  nearest_hundredth_upto limit = true →
  ∀ successful total,
    0 ≤ successful ≤ total → 1 ≤ total ≤ limit →
    nearest_hundredth successful total = true.
Proof.
  unfold nearest_hundredth_upto. intros Hall successful total Hs Ht.
  rewrite forallb_forall in Hall.
  specialize (Hall total). rewrite forallb_forall in Hall.
  apply Hall; apply list_elem_of_In, elem_of_seqZ; lia.
Qed.

(** For every pair of counts that 1000 rows allow, the double-precision
    computation ends on an integer number of hundredths nearest to the exact
    percentage. *)
Lemma nearest_hundredth_counts successful total :
  0 ≤ successful ≤ total → 1 ≤ total ≤ 1000 →
  ∃ r, hundredths successful total = Some r
       ∧ 2 * Z.abs (r * total - 10000 * successful) ≤ total.
Proof.
  intros Hs Ht.
  pose proof (nearest_hundredth_upto_sound 1000 nearest_hundredth_upto_limit
                successful total Hs Ht) as Hnear.
  unfold nearest_hundredth in Hnear.
  destruct (hundredths successful total) as [r |]; [| done].
  exists r. split; [done |]. by apply Z.leb_le.
Qed.

Lemma Math_round_quotient_nearest p q :
  0 < q → 2 * Z.abs (Math_round_quotient p q * q - p) ≤ q.
Proof.
  intros Hq. unfold Math_round_quotient.
  pose proof (Z.mul_div_le (2 * p + q) (2 * q) ltac:(lia)) as Hlo.
  pose proof (Z.mul_succ_div_gt (2 * p + q) (2 * q) ltac:(lia)) as Hhi.
  set (a := (2 * p + q) `div` (2 * q)) in *.
  nia.
Qed.

Lemma foldl_sum {A} (f : A → Z) (l : list A) acc :
  foldl (λ sum d, sum + f d) acc l = acc + foldr Z.add 0 (f <$> l).
Proof.
  revert acc. induction l as [| x l IH]; intros acc; [simpl; lia |].
  rewrite fmap_cons. cbn [foldl foldr]. rewrite IH. lia.
Qed.

Lemma filter_complement_length {A} (P : A → Prop) `{∀ x, Decision (P x)} (l : list A) :
  (length (filter P l) + length (filter (λ x, ¬ P x) l) = length l)%nat.
Proof.
  induction l as [| x l IH]; [done |].
  rewrite !filter_cons. destruct (decide (P x)), (decide (¬ P x)); simpl; try lia;
    tauto.
Qed.

(** What the query of [getDeliveryStats] selects: the newest rows of the
    subscription, at most 1000 of them, newest first. *)
Lemma select_recent_deliveries_spec table id :
  let mine := filter (λ d, Delivery.webhookId d = id) table in
  let ds := select_recent_deliveries table id in
  (∃ older,
     mine ≡ₚ ds ++ older
     ∧ ∀ x y, x ∈ ds → y ∈ older → Delivery.createdAt y ≤ Delivery.createdAt x)
  ∧ StronglySorted newer_first ds
  ∧ length ds = (length mine `min` 1000)%nat.
Proof.
  intros mine ds. unfold ds, select_recent_deliveries. fold mine.
  pose proof (StronglySorted_merge_sort newer_first mine) as Hsorted.
  pose proof (merge_sort_Permutation newer_first mine) as Hperm.
  rewrite <- (take_drop 1000 (merge_sort newer_first mine)) in Hsorted, Hperm.
  split_and!.
  - exists (drop 1000 (merge_sort newer_first mine)). split; [done |].
    intros x y Hx Hy.
    apply (StronglySorted_app_1_elem_of newer_first _ _ x y Hsorted Hx Hy).
  - by eapply StronglySorted_app_1_l.
  - rewrite length_take, (Permutation_length (merge_sort_Permutation _ _)). lia.
Qed.

(** C7: the statistics of a subscription are computed over its newest
    recorded attempts, at most 1000 of them, ordered newest first: [total] is
    their number, [successful] the number of those with [success = 1],
    [failed] the rest, [successRate] the percentage of successes rounded to
    hundredths, [avgDuration] the mean duration (a null duration counting as
    0) rounded to an integer; on no attempts both are 0. *)
Theorem getDeliveryStats_spec table id :
  let mine := filter (λ d, Delivery.webhookId d = id) table in
  let ds := select_recent_deliveries table id in
  let st := getDeliveryStats table id in
  let sum := foldr Z.add 0 ((λ d, number_or (Delivery.duration d) 0) <$> ds) in
  (∃ older,
     mine ≡ₚ ds ++ older
     ∧ ∀ x y, x ∈ ds → y ∈ older → Delivery.createdAt y ≤ Delivery.createdAt x)
  ∧ StronglySorted newer_first ds
  ∧ length ds = (length mine `min` 1000)%nat
  ∧ total st = Z.of_nat (length ds)
  ∧ successful st = Z.of_nat (length (filter (λ d, Delivery.success d = 1) ds))
  ∧ failed st = total st - successful st
  ∧ failed st = Z.of_nat (length (filter (λ d, Delivery.success d ≠ 1) ds))
  ∧ (∃ r, successRate st = (number r / number 100)%float
          ∧ 2 * Z.abs (r * total st - 10000 * successful st) ≤ total st)
  ∧ 2 * Z.abs (avgDuration st * total st - sum) ≤ total st
  ∧ (total st = 0 → successRate st = 0%float ∧ avgDuration st = 0).
Proof.
  intros mine ds st sum.
  destruct (select_recent_deliveries_spec table id) as (Holder & Hsorted & Hlen).
  fold mine ds in Holder, Hsorted, Hlen.
  pose proof (filter_complement_length (λ d, Delivery.success d = 1) ds) as Hcount.
  assert (Hsum : foldl (λ sum d, sum + number_or (Delivery.duration d) 0) 0 ds = sum)
    by (rewrite foldl_sum; unfold sum; lia).
  unfold st, getDeliveryStats. fold ds.
  cbn [total successful failed successRate avgDuration]. rewrite Hsum.
  set (t := Z.of_nat (length ds)).
  set (k := Z.of_nat (length (filter (λ d, Delivery.success d = 1) ds))).
  assert (Hk : 0 ≤ k ≤ t)
    by (unfold k, t; split; [lia | apply Nat2Z.inj_le, length_filter]).
  assert (Ht : t ≤ 1000) by (unfold t; lia).
  split_and!; try done.
  - unfold k, t. lia.
  - destruct (Z.ltb_spec 0 t) as [Hpos | Hzero].
    + destruct (nearest_hundredth_counts k t Hk ltac:(lia)) as (r & Hr & Hnear).
      exists r. split; [| done].
      unfold Math_round. unfold hundredths in Hr. by rewrite Hr.
    + exists 0. split; [reflexivity | lia].
  - destruct (Z.eqb_spec t 0) as [Hzero | Hpos].
    + assert (ds = []) as Hnil by (apply length_zero_iff_nil; lia).
      unfold sum. rewrite Hzero, Hnil. simpl. unfold Math_round_quotient. simpl. lia.
    + apply Math_round_quotient_nearest. lia.
  - intros Hzero.
    assert (ds = []) as Hnil by (apply length_zero_iff_nil; lia).
    unfold sum. rewrite Hzero, Hnil. simpl. done.
Qed.

(** *** Scenarios of the ledger *)

(** Three attempts, one success, durations 5, 6 and 8 ms; the attempt of the
    other subscription does not count. *)
Lemma getDeliveryStats_spec_witness :
  getDeliveryStats ledger_d "wh-a"
  = mkStats 3 1 2 (number 3333 / number 100)%float 6
  ∧ Delivery.createdAt <$> select_recent_deliveries ledger_d "wh-a" = [6025; 2015; 10]
  ∧ (total (getDeliveryStats [] "wh-a") = 0
     → successRate (getDeliveryStats [] "wh-a") = 0%float
       ∧ avgDuration (getDeliveryStats [] "wh-a") = 0).
Proof.
  split_and!; [vm_compute; reflexivity | vm_compute; reflexivity |].
  apply (getDeliveryStats_spec [] "wh-a").
Defined.

(** 23 successes in 160 attempts are 14.375 percent; the doubles of the
    computation fall just below the tie and the rate comes out as 14.37. *)
Lemma getDeliveryStats_tie :
  successRate (getDeliveryStats ledger_tie "wh-a") = (number 1437 / number 100)%float.
Proof. vm_compute. reflexivity. Qed.

(** ** The create handler *)




Section AdminProperties.

Context (URL_parses : string → bool).
Context (store : StoreEnv).



End AdminProperties.

(** *** Scenarios of the create handler *)


(** * Further properties *)

(** ** Further properties of the service *)

Section ServiceProperties.

Context (env : Env).

(** A timer is only armed below the retry limit, for the next ordinal. *)
Lemma deliverWebhook_retry_bound w e d n s :
  ∃ new,
    timers (deliverWebhook env w e d n s).2 = timers s ++ new
    ∧ (new = []
       ∨ n < maxRetries w
         ∧ ∃ t dl, new = [mkTimer t dl (mkCall w e d (n + 1))]).
Proof.
  unfold deliverWebhook, try_catch, fetch, db_insert_delivery, when,
    mbind, M_bind; simpl.
  destruct (outcome (http env w n)) as [resp | err]; simpl;
    [destruct (insert_fault env w n InTry); simpl;
     [| destruct (Response.ok resp); simpl] |];
    try destruct (insert_fault env w n InCatch); simpl;
    destruct (Z.ltb_spec n (maxRetries w)); simpl;
    first [ by exists []; rewrite app_nil_r; split; [| left]
          | eexists [_]; split; [reflexivity |]; right; split; [done |];
            by eexists _, _ ].
Qed.

Lemma pop_due_nil ts : pop_due ts = None → ts = [].
Proof.
  destruct ts as [| t ts]; [done |]. simpl.
  destruct (pop_due ts) as [[u rest] |]; [| done].
  by destruct (fire_at u <? fire_at t).
Qed.

(** Taking the timer that is due first out of the queue takes its share of
    the remaining invocations with it. *)
Lemma pop_due_budget ts t rest :
  pop_due ts = Some (t, rest) →
  sum_list (invocations_left <$> ts)
  = (invocations_left t + sum_list (invocations_left <$> rest))%nat.
Proof.
  revert t rest. induction ts as [| t0 ts IH]; intros t rest; [done |].
  cbn [pop_due]. destruct (pop_due ts) as [[u rest'] |] eqn:Hpop.
  - specialize (IH u rest' eq_refl).
    destruct (fire_at u <? fire_at t0); intros [= <- <-];
      rewrite !fmap_cons; cbn [sum_list_with id]; lia.
  - apply pop_due_nil in Hpop as ->. intros [= <- <-]. simpl. lia.
Qed.

(** With fuel for the remaining invocations the event loop empties the
    timer queue, whatever the collaborators do, and invokes
    [deliverWebhook] no more often than that. *)
Lemma drain_quiescent fuel : ∀ s,
  (sum_list (invocations_left <$> timers s) ≤ fuel)%nat →
  ∃ s',
    drain env fuel s = (Ok tt, s')
    ∧ timers s' = []
    ∧ (length (calls s) ≤ length (calls s'))%nat
    ∧ (length (calls s') ≤ length (calls s)
                           + sum_list (invocations_left <$> timers s))%nat.
Proof.
  induction fuel as [| fuel IH]; intros s Hfuel.
  - exists s. simpl. split_and!; [done | | lia | lia].
    destruct (timers s) as [| t ts]; [done |].
    simpl in Hfuel. unfold invocations_left in Hfuel. lia.
  - simpl. destruct (pop_due (timers s)) as [[t rest] |] eqn:Hpop.
    + rewrite (pop_due_budget _ _ _ Hpop) in Hfuel |- *.
      destruct t as [at_ dl [w e d n]].
      unfold fire, resume_at, settle, mbind, M_bind. simpl.
      destruct (deliverWebhook_effects env w e d n
                  (set_clock at_ (set_timers rest s)))
        as (r & s1 & new0 & Hrun & _ & Hcalls & _).
      destruct (deliverWebhook_retry_bound w e d n
                  (set_clock at_ (set_timers rest s))) as (new & Htimers & Hnew).
      rewrite Hrun in Htimers |- *. simpl in Htimers, Hcalls.
      assert (Hless : (sum_list (invocations_left <$> timers s1)
                       < invocations_left (mkTimer at_ dl (mkCall w e d n))
                         + sum_list (invocations_left <$> rest))%nat).
      { rewrite Htimers, fmap_app, sum_list_with_app.
        destruct Hnew as [-> | (Hlt & t' & dl' & ->)];
          unfold invocations_left; simpl; lia. }
      destruct (IH s1) as (s' & Hdrain & Hidle & Hmono & Hlen); [lia |].
      exists s'. unfold mret, M_ret. rewrite Hdrain.
      rewrite Hcalls, length_app in Hlen, Hmono. simpl in Hlen, Hmono.
      change (invocations_left (mkTimer at_ dl (mkCall w e d n)))
        with (S (Z.to_nat (maxRetries w - n))) in Hless.
      split_and!; [done | done | lia | lia].
    + exists s. apply pop_due_nil in Hpop. rewrite Hpop. simpl.
      split_and!; [done | done | lia | lia].
Qed.

(** X1: whatever the stores and the transport do, a pipeline started with
    no timer pending comes to an end: it resolves, leaves no timer armed, and
    has invoked [deliverWebhook] at least once and at most
    [max(1, maxRetries)] times. *)
Theorem pipeline_terminates w e d s :
  timers s = [] →
  ∃ s',
    pipeline env w e d s = (Ok tt, s')
    ∧ timers s' = []
    ∧ (length (calls s) < length (calls s'))%nat
    ∧ Z.of_nat (length (calls s'))
      ≤ Z.of_nat (length (calls s)) + Z.max 1 (maxRetries w).
Proof.
  intros Hidle.
  unfold pipeline, settle, event_loop, mbind, M_bind.
  destruct (deliverWebhook_effects env w e d 1 s)
    as (r & s1 & new0 & Hrun & _ & Hcalls & _).
  destruct (deliverWebhook_retry_bound w e d 1 s) as (new & Htimers & Hnew).
  rewrite Hrun in Htimers |- *. simpl in Htimers |- *.
  rewrite Hidle in Htimers. simpl in Htimers.
  destruct (drain_quiescent (sum_list (invocations_left <$> timers s1)) s1)
    as (s' & Hdrain & Hquiet & Hmono & Hlen); [lia |].
  exists s'. rewrite Hdrain.
  rewrite Htimers in Hlen. rewrite Hcalls, length_app in Hlen, Hmono.
  simpl in Hlen, Hmono.
  split_and!; [done | done | lia |].
  destruct Hnew as [-> | (Hlt & t' & dl' & ->)];
    unfold invocations_left in Hlen; simpl in Hlen; lia.
Qed.

End ServiceProperties.

Ltac run_monad :=
  cbv beta iota zeta delta
    [deliverWebhook try_catch fetch db_insert_delivery when mbind M_bind mret
     M_ret Date_now logger setTimeout settle resume_at add_call set_clock
     add_request add_delivery set_timers add_log clock calls wire ledger
     timers log fst snd negb andb].

Section BranchProperties.
Context (env : Env).

(** The result, the ledger and the timers after an invocation, by what the
    transport and the two inserts do. *)
Lemma deliverWebhook_branches w e d n s :
  let run := deliverWebhook env w e d n s in
  let t := clock s + elapsed (http env w n) in
  let len := length (ledger s) in
  match outcome (http env w n), insert_fault env w n InTry,
        insert_fault env w n InCatch with
  | inl resp, None, _ =>
      run.1 = Ok tt
      ∧ ledger run.2 = ledger s ++ [response_row env w e d n (clock s) len resp]
      ∧ timers run.2 = timers s ++
          (if negb (Response.ok resp) && (n <? maxRetries w)
           then [next_attempt w e d n t] else [])
  | inl _, Some msg, None | inr msg, _, None =>
      run.1 = Ok tt
      ∧ ledger run.2 = ledger s ++ [failure_row env w e d n (clock s) len msg]
      ∧ timers run.2 = timers s ++
          (if n <? maxRetries w then [next_attempt w e d n t] else [])
  | inl _, Some _, Some msg | inr _, _, Some msg =>
      run.1 = Throw msg ∧ ledger run.2 = ledger s ∧ timers run.2 = timers s
  end.
Proof.
  run_monad.
  destruct (outcome (http env w n)) as [resp | err]; run_monad;
    [destruct (insert_fault env w n InTry); run_monad;
     [| destruct (Response.ok resp) eqn:Hok; run_monad] |];
    try destruct (insert_fault env w n InCatch); run_monad;
    destruct (n <? maxRetries w); run_monad;
    unfold response_row, failure_row, next_attempt; rewrite ?Hok, ?app_nil_r;
    split_and!; reflexivity.
Qed.

End BranchProperties.

Lemma substring0_length n s :
  String.length (String.substring 0 n s) = (n `min` String.length s)%nat.
Proof.
  revert s. induction n as [| n IH]; intros [| c s]; simpl; try done.
  by rewrite IH.
Qed.

Lemma substring0_prefix n s : String.prefix (String.substring 0 n s) s = true.
Proof.
  revert s. induction n as [| n IH]; intros [| c s]; simpl; try done.
  rewrite IH. by destruct (Ascii.ascii_dec c c).
Qed.

Lemma slice0_length n s : Z.of_nat (String.length (slice0 n s)) ≤ Z.of_N n.
Proof. unfold slice0. rewrite substring0_length. lia. Qed.

Section EdgeProperties.
Context (env : Env).

(** X2: the promise of [deliverWebhook] rejects exactly when the [catch]
    block is entered ([fetch] rejected, or the insert of the response
    raised) and its own insert raises too; the rejection carries that error,
    and then nothing was recorded and no retry is scheduled. *)
Theorem deliverWebhook_rejection w e d n s msg :
  ((deliverWebhook env w e d n s).1 = Throw msg
   ↔ insert_fault env w n InCatch = Some msg
     ∧ ((∃ err, outcome (http env w n) = inr err)
        ∨ is_Some (insert_fault env w n InTry)))
  ∧ ((deliverWebhook env w e d n s).1 = Throw msg →
     ledger (deliverWebhook env w e d n s).2 = ledger s
     ∧ timers (deliverWebhook env w e d n s).2 = timers s).
Proof.
  pose proof (deliverWebhook_branches env w e d n s) as Hrun. simpl in Hrun.
  destruct (outcome (http env w n)) as [resp | err],
    (insert_fault env w n InTry) as [m1 |],
    (insert_fault env w n InCatch) as [m2 |];
    destruct Hrun as (-> & Hledger & Htimers);
    (split; [split |]);
    first
      [ by intros [=]
      | by intros [[=] _]
      | by intros [_ [[? [=]] | [? [=]]]]
      | by intros [[= ->] _]
      | intros [= ->]; split; [done | first [left; by eexists | right; by eexists]]
      | by intros _ ].
Qed.

(** X3: when the endpoint answered but the insert of the response raises
    and the insert of the [catch] block is accepted, the attempt is recorded
    as a failure without status, with the (truncated) database error as its
    error, and below the retry limit it is retried, even if the response was
    a 2xx. *)
Theorem unrecorded_response_is_retried w e d n s resp msg :
  outcome (http env w n) = inl resp →
  insert_fault env w n InTry = Some msg →
  insert_fault env w n InCatch = None →
  (deliverWebhook env w e d n s).1 = Ok tt
  ∧ ∃ r,
      ledger (deliverWebhook env w e d n s).2 = ledger s ++ [r]
      ∧ Delivery.attempt r = n
      ∧ Delivery.success r = 0
      ∧ Delivery.responseStatus r = None
      ∧ Delivery.error r = Some (slice0 5000%N msg)
      ∧ (n < maxRetries w →
         timers (deliverWebhook env w e d n s).2
         = timers s ++ [next_attempt w e d n (clock s + elapsed (http env w n))]).
Proof.
  intros Hout Htry Hcatch.
  pose proof (deliverWebhook_branches env w e d n s) as Hrun. simpl in Hrun.
  rewrite Hout, Htry, Hcatch in Hrun. destruct Hrun as (Hok & Hledger & Htimers).
  split; [done |]. eexists. split; [exact Hledger |]. split_and!; try done.
  intros Hlt. apply Z.ltb_lt in Hlt. by rewrite Hlt in Htimers.
Qed.

(** X4: a recorded response body is at most 5000 characters long and is a
    prefix of the body received (the empty string if it could not be read);
    the error of a record without response status is at most 5000 characters
    long. *)
Theorem recorded_texts_truncated w e d n s :
  ∃ rows,
    ledger (deliverWebhook env w e d n s).2 = ledger s ++ rows
    ∧ ∀ r, r ∈ rows →
        (∀ body, Delivery.responseBody r = Some body →
           Z.of_nat (String.length body) ≤ 5000
           ∧ ∃ resp, outcome (http env w n) = inl resp
                     ∧ String.prefix body (default "" (Response.text resp)) = true)
        ∧ (Delivery.responseStatus r = None →
           ∀ msg, Delivery.error r = Some msg →
                  Z.of_nat (String.length msg) ≤ 5000).
Proof.
  pose proof (deliverWebhook_branches env w e d n s) as Hrun. simpl in Hrun.
  pose proof (slice0_length 5000) as Hlen.
  destruct (outcome (http env w n)) as [resp | err],
    (insert_fault env w n InTry) as [m1 |],
    (insert_fault env w n InCatch) as [m2 |];
    destruct Hrun as (_ & Hledger & _);
    first [ exists []; rewrite app_nil_r; split; [done |];
            intros r Hr; by apply elem_of_nil in Hr
          | eexists [_]; split; [exact Hledger |];
            intros r Hr; apply list_elem_of_singleton in Hr as ->;
            split; simpl;
            [ intros body [= <-] || intros body [=]
            | intros Hstatus msg [= <-] || intros [=] ] ];
    try done.
  all: split; [apply Hlen |]; eexists; split; [done |]; apply substring0_prefix.
Qed.

End EdgeProperties.

Section HeaderProperties.
Context (env : Env).

(** X5: the request of an invocation is a POST to the subscription's URL
    whose headers are, by precedence: the signature when the secret is
    truthy; else the subscription's custom header of that name; else the
    built-in value for Content-Type, User-Agent, X-Webhook-Event and
    X-Webhook-Delivery-ID; and nothing else.  Custom headers thus override
    every built-in header but the signature of a signed subscription. *)
Theorem request_headers_precedence w e d n s :
  ∃ req,
    wire (deliverWebhook env w e d n s).2 = wire s ++ [req]
    ∧ Request.url req = Webhook.url w
    ∧ Request.method req = "POST"
    ∧ ∀ k,
        Request.headers req !! k =
        if decide (k = "X-Webhook-Signature" ∧ truthy (Webhook.secret w) = true)
        then Some ("sha256=" +:+ hmac_sha256_hex env (default "" (Webhook.secret w))
                                   (Request.body req))
        else
          match default ∅ (Webhook.headers w) !! k with
          | Some v => Some v
          | None =>
              if decide (k = "Content-Type") then Some "application/json"
              else if decide (k = "User-Agent") then Some "VideoHub-Webhook/1.0"
              else if decide (k = "X-Webhook-Event") then Some e
              else if decide (k = "X-Webhook-Delivery-ID")
                   then Some (randomUUID env w n)
              else None
          end.
Proof.
  destruct (deliverWebhook_effects env w e d n s)
    as (r & s' & new & Hrun & _ & _ & Hwire & _).
  rewrite Hrun. eexists. split; [exact Hwire |]. simpl.
  split_and!; [done | done |]. intros k.
  assert (Hdefault : ∀ custom : Headers,
            (custom ∪ default_headers env w e n) !! k =
            match custom !! k with
            | Some v => Some v
            | None =>
                if decide (k = "Content-Type") then Some "application/json"
                else if decide (k = "User-Agent") then Some "VideoHub-Webhook/1.0"
                else if decide (k = "X-Webhook-Event") then Some e
                else if decide (k = "X-Webhook-Delivery-ID")
                     then Some (randomUUID env w n)
                else None
            end).
  { intros custom. destruct (custom !! k) as [v |] eqn:Hk.
    - by apply lookup_union_Some_l.
    - rewrite lookup_union_r by done. unfold default_headers.
      rewrite !lookup_insert, lookup_empty.
      repeat (case_decide; simplify_eq; try done). }
  unfold request_headers.
  destruct (Webhook.secret w) as [S |]; simpl.
  - destruct (String.eqb_spec S "") as [-> | HS]; simpl.
    + rewrite decide_False by (intros [_ [=]]). apply Hdefault.
    + destruct (decide (k = "X-Webhook-Signature")) as [-> | Hk].
      * rewrite decide_True by done. by rewrite lookup_insert_eq.
      * rewrite decide_False by (by intros [? _]).
        rewrite lookup_insert_ne by done. apply Hdefault.
  - rewrite decide_False by (intros [_ [=]]). apply Hdefault.
Qed.


End HeaderProperties.

Section TestProperties.
Context (toISOString : Z → string).
Context (env : Env).

Lemma select_webhook_by_id_found id s :
  select_fault env = None →
  select_webhook_by_id env id s
  = (Ok (option_list (find_webhook id (webhooks_table env))), s).
Proof.
  intros Hsel. unfold select_webhook_by_id, find_webhook. rewrite Hsel.
  by destruct (filter _ _).
Qed.

(** X8: [testWebhook] on an id that no subscription has answers
    [success: false, "Webhook not found"] and does nothing else. *)
Theorem testWebhook_unknown id s :
  select_fault env = None →
  find_webhook id (webhooks_table env) = None →
  testWebhook toISOString env id s
  = (Ok (TestResult.mk false "Webhook not found"), s).
Proof.
  intros Hsel Hnone. unfold testWebhook, try_catch.
  rewrite (bind_ok _ _ _ _ _ (select_webhook_by_id_found id s Hsel)).
  by rewrite Hnone.
Qed.

(** X9: [testWebhook] on an existing subscription delivers a
    [webhook.test] event as attempt 1, whoever owns the subscription and
    whether or not it is active, and reports success as soon as the attempt
    is recorded: also when the attempt failed, in which case the retry is
    scheduled as for any delivery. *)
Theorem testWebhook_reports_success id w s :
  select_fault env = None →
  find_webhook id (webhooks_table env) = Some w →
  (∀ site, insert_fault env w 1 site = None) →
  ∃ r s',
    testWebhook toISOString env id s
    = (Ok (TestResult.mk true "Test webhook delivered successfully"), s')
    ∧ calls s' = calls s ++ [mkCall w "webhook.test" (test_data toISOString (clock s)) 1]
    ∧ ledger s' = ledger s ++ [r]
    ∧ Delivery.eventType r = "webhook.test"
    ∧ Delivery.success r = (if attempt_succeeds env w 1 then 1 else 0)
    ∧ timers s' = timers s
                  ++ retry_timer env w "webhook.test"
                       (test_data toISOString (clock s)) 1 (clock s').
Proof.
  intros Hsel Hfound Hacc. unfold testWebhook, try_catch.
  rewrite (bind_ok _ _ _ _ _ (select_webhook_by_id_found id s Hsel)), Hfound.
  simpl. rewrite (bind_ok _ _ s (clock s) s) by reflexivity.
  destruct (deliverWebhook_accepted env w "webhook.test"
              (test_data toISOString (clock s)) 1 s Hacc)
    as (r & s' & Hrun & Hclock & Hcalls & Hledger & Hrec & Htimers).
  rewrite (bind_ok _ _ _ _ _ Hrun). exists r, s'.
  split_and!; try done.
  - by destruct Hrec.
  - by destruct Hrec.
Qed.

(** X10: [testWebhook] never raises: it always resolves to a result; when
    the subscription query raises, the result carries that error and nothing
    else happened; and whenever it reports failure, nothing was recorded and
    no retry is scheduled. *)
Theorem testWebhook_never_raises id s :
  ∃ result,
    (testWebhook toISOString env id s).1 = Ok result
    ∧ (∀ msg, select_fault env = Some msg →
         testWebhook toISOString env id s = (Ok (TestResult.mk false msg), s))
    ∧ (TestResult.success result = false →
       ledger (testWebhook toISOString env id s).2 = ledger s
       ∧ timers (testWebhook toISOString env id s).2 = timers s).
Proof.
  unfold testWebhook, try_catch, select_webhook_by_id, mbind, M_bind.
  destruct (select_fault env) as [fault |]; simpl.
  { eexists. split_and!; [done | by intros ? [= ->] | done]. }
  destruct (take 1 _) as [| w rows]; simpl.
  { eexists. split_and!; [done | done | done]. }
  pose proof (deliverWebhook_branches env w "webhook.test"
                (test_data toISOString (clock s)) 1 s) as Hrun.
  simpl in Hrun.
  destruct (deliverWebhook env w "webhook.test" _ 1 s) as [[[] | msg] s'] eqn:Hd;
    simpl; eexists; (split_and!; [done | done |]); [done |].
  intros _. simpl in Hrun.
  destruct (outcome (http env w 1)), (insert_fault env w 1 InTry),
    (insert_fault env w 1 InCatch); by destruct Hrun as ([=] & ? & ?) || 
    by destruct Hrun as (_ & ? & ?).
Qed.

End TestProperties.

(** ** Further properties of the statistics *)

Lemma sum_Z_permutation (l1 l2 : list Z) :
  l1 ≡ₚ l2 → foldr Z.add 0 l1 = foldr Z.add 0 l2.
Proof. induction 1; simpl; lia. Qed.

(** The statistics as a function of the three quantities they are made of. *)
Lemma getDeliveryStats_from_counts table id :
  let ds := select_recent_deliveries table id in
  let t := Z.of_nat (length ds) in
  let k := Z.of_nat (length (filter (λ d, Delivery.success d = 1) ds)) in
  let sum := foldr Z.add 0 ((λ d, number_or (Delivery.duration d) 0) <$> ds) in
  let rate := if 0 <? t then (number k / number t * number 100)%float
              else number 0 in
  getDeliveryStats table id
  = mkStats t k (t - k)
      (Math_round (rate * number 100) / number 100)%float
      (Math_round_quotient sum (if t =? 0 then 1 else t)).
Proof.
  intros ds t k sum rate. unfold getDeliveryStats. fold ds.
  rewrite foldl_sum. by rewrite Z.add_0_l.
Qed.

(** X11: in the statistics, [0 <= successful <= total <= 1000] and
    [failed >= 0]; the success rate is a whole number of hundredths between
    0 and 100, it is 100 exactly when there are attempts and none failed, and
    0 exactly when none succeeded. *)
Theorem getDeliveryStats_bounds table id :
  let st := getDeliveryStats table id in
  0 ≤ successful st ≤ total st
  ∧ total st ≤ 1000
  ∧ 0 ≤ failed st
  ∧ ∃ r,
      successRate st = (number r / number 100)%float
      ∧ 0 ≤ r ≤ 10000
      ∧ (r = 10000 ↔ 0 < total st ∧ failed st = 0)
      ∧ (r = 0 ↔ successful st = 0).
Proof.
  intros st. unfold st. rewrite getDeliveryStats_from_counts.
  cbn [total successful failed successRate].
  destruct (select_recent_deliveries_spec table id) as (_ & _ & Hlen).
  set (ds := select_recent_deliveries table id) in *.
  set (t := Z.of_nat (length ds)).
  set (k := Z.of_nat (length (filter (λ d, Delivery.success d = 1) ds))).
  assert (Hk : 0 ≤ k ≤ t)
    by (unfold k, t; split; [lia | apply Nat2Z.inj_le, length_filter]).
  assert (Ht : t ≤ 1000) by (unfold t; lia).
  split_and!; [lia .. |].
  destruct (Z.ltb_spec 0 t) as [Hpos | Hzero].
  - destruct (nearest_hundredth_counts k t Hk ltac:(lia)) as (r & Hr & Hnear).
    exists r. unfold Math_round. unfold hundredths in Hr. rewrite Hr.
    split_and!; [done | nia | nia | | ].
    + split; [intros -> | intros [_ Hall]]; nia.
    + split; [intros -> | intros Hnone]; nia.
  - exists 0. split_and!; [reflexivity | lia | lia | lia | lia].
Qed.

(** X12: for a subscription with at most 1000 recorded attempts the
    statistics depend only on the multiset of its own rows: neither the order
    of the rows in the table nor the rows of other subscriptions matter. *)
Theorem getDeliveryStats_order_irrelevant table table' id :
  filter (λ d, Delivery.webhookId d = id) table
    ≡ₚ filter (λ d, Delivery.webhookId d = id) table' →
  (length (filter (λ d, Delivery.webhookId d = id) table) ≤ 1000)%nat →
  getDeliveryStats table id = getDeliveryStats table' id.
Proof.
  intros Hperm Hlen.
  assert (Hds : select_recent_deliveries table id
                ≡ₚ select_recent_deliveries table' id).
  { unfold select_recent_deliveries.
    rewrite !take_ge
      by (rewrite (Permutation_length (merge_sort_Permutation _ _));
          rewrite <- ?Hperm; done).
    by rewrite !merge_sort_Permutation. }
  rewrite !getDeliveryStats_from_counts. cbv zeta.
  rewrite (Permutation_length Hds).
  rewrite (Permutation_length
             (filter_Permutation (λ d, Delivery.success d = 1) _ _ Hds)).
  by rewrite (sum_Z_permutation _ _
                (fmap_Permutation (λ d, number_or (Delivery.duration d) 0) _ _ Hds)).
Qed.

(** ** The administrative routes *)

Lemma find_webhook_Some id table w :
  find_webhook id table = Some w → w ∈ table ∧ Webhook.id w = id.
Proof.
  unfold find_webhook. intros Hhead.
  apply head_Some_elem_of in Hhead. by apply list_elem_of_filter in Hhead as [? ?].
Qed.

Section CreateProperties.
Context (URL_parses : string → bool).
Context (store : StoreEnv).


End CreateProperties.

(** What the create handler stores, when it stores. *)
Lemma create_webhook_rows URL_parses store userId body table :
  let (reply, table') := create_webhook URL_parses store userId body table in
  match reply with
  | ReplyWebhook _ w =>
      table' = table ++ [w] ∧ Webhook.userId w = userId ∧ Webhook.active w = 1
  | ReplyError _ _ => table' = table
  end.
Proof.
  unfold create_webhook.
  destruct (truthy userId); simpl; [| done].
  destruct (CreateBody.name body) as [name |]; [| done].
  destruct (CreateBody.url body) as [url |]; [| done].
  destruct (CreateBody.events body) as [[| ? | ? | ? | [| event events] | ?] |];
    try done.
  destruct (String.eqb name "" || String.eqb url ""); [done |].
  destruct (URL_parses url); simpl; [| done].
  by destruct (insert_webhook_fault store).
Qed.

(** X14: a subscription that the create handler has just stored gets a
    first attempt when its owner triggers one of its events, provided the
    subscription query answers and the filter of the dispatch does not throw
    on a subscription of that owner. *)
Theorem created_subscription_is_dispatched URL_parses store uid body table
    w table' env items e d s ws :
  create_webhook URL_parses store (Some uid) body table = (ReplyWebhook 201 w, table') →
  webhooks_table env = table' →
  select_fault env = None →
  matching env e uid = Ok ws →
  Webhook.events w = JArray items →
  JString e ∈ items →
  mkCall w e d 1 ∈ calls (triggerEvent env e d uid s).2.
Proof.
  intros Hcreate Htable Hsel Hws Hitems He.
  pose proof (create_webhook_rows URL_parses store (Some uid) body table) as Hrow.
  rewrite Hcreate in Hrow. destruct Hrow as (-> & Howner & Hactive).
  destruct (triggerEvent_answered env e d uid s ws Hsel Hws)
    as (s' & Hrun & _ & Hcalls & _).
  rewrite Hrun. simpl. rewrite Hcalls. apply elem_of_app. right.
  apply (list_elem_of_fmap_2 (λ w, mkCall w e d 1)).
  unfold matching in Hws. apply Array_filter_Ok in Hws as [_ ->].
  apply list_elem_of_filter. split.
  - rewrite Hitems. by apply includes_array.
  - rewrite Htable. apply list_elem_of_filter.
    split; [done |]. apply elem_of_app. right. by left.
Qed.

#[global] Instance newer_created_total : Total newer_created.
Proof. intros a b. unfold newer_created. lia. Qed.

#[global] Instance newer_created_trans : Transitive newer_created.
Proof. intros a b c. unfold newer_created. lia. Qed.

Lemma filter_none {A} (P : A → Prop) `{∀ x, Decision (P x)} (l : list A) :
  (∀ x, x ∈ l → ¬ P x) → filter P l = [].
Proof.
  induction l as [| x l IH]; intros Hnone; [done |].
  rewrite filter_cons_False by (apply Hnone; by left).
  apply IH. intros y Hy. apply Hnone. by right.
Qed.

Section RouteProperties.
Context (URL_parses : string → bool).
Context (faults : DbFaults).

(** X15: a PATCH changes the table only for the owner: the reply is the
    updated row only if the caller owns a subscription with that id and the
    given URL, if any and not empty, parses; every failure reply leaves the
    table as it was, 404 meaning no subscription has the id and 403 that its
    owner is someone else. *)
Theorem patch_webhook_owner_only now userId id body table :
  let (reply, table') := patch_webhook URL_parses faults now userId id body table in
  match reply with
  | WebhookUpdated w' =>
      ∃ uid w,
        userId = Some uid
        ∧ w ∈ table ∧ Webhook.id w = id ∧ Webhook.userId w = Some uid
        ∧ w' = apply_update body now w
        ∧ url_rejected URL_parses (PatchBody.url body) = false
  | Failure status _ =>
      table' = table
      ∧ (status = 404 → ∀ w, w ∈ table → Webhook.id w ≠ id)
      ∧ (status = 403 → ∃ w, w ∈ table ∧ Webhook.id w = id ∧ Webhook.userId w ≠ userId)
  | _ => False
  end.
Proof.
  unfold patch_webhook.
  destruct userId as [uid |]; [| done].
  destruct (String.eqb uid ""); [done |].
  destruct (read_fault faults); [done |].
  destruct (find_webhook id table) as [w |] eqn:Hfind.
  - apply find_webhook_Some in Hfind as [Hw Hid].
    destruct (decide (Webhook.userId w = Some uid)) as [Howner | Hother].
    + destruct (url_rejected URL_parses (PatchBody.url body)) eqn:Hurl; [done |].
      destruct (update_refused body); [done |].
      destruct (write_fault faults); [done |].
      by exists uid, w.
    + split_and!; [done | done |]. intros _. by exists w.
  - split_and!; [done | | done]. intros _ w Hw Hid.
    unfold find_webhook in Hfind. apply head_None in Hfind.
    by apply (filter_nil_not_elem_of _ _ w Hfind).
Qed.

(** X16: whatever a PATCH answers, the rows of the table afterwards are
    the rows before, each one kept or updated: there are as many, every row
    keeps its id, owner and creation time, a row with another id is kept as
    it was, and an updated row keeps every field that the body leaves
    undefined. *)
Theorem patch_webhook_preserves now userId id body table :
  let table' := (patch_webhook URL_parses faults now userId id body table).2 in
  ∃ after : Webhook → Webhook,
    table' ≡ₚ after <$> table
    ∧ ∀ w,
        Webhook.id (after w) = Webhook.id w
        ∧ Webhook.userId (after w) = Webhook.userId w
        ∧ Webhook.createdAt (after w) = Webhook.createdAt w
        ∧ (Webhook.id w ≠ id → after w = w)
        ∧ (PatchBody.name body = None → Webhook.name (after w) = Webhook.name w)
        ∧ (PatchBody.url body = None → Webhook.url (after w) = Webhook.url w)
        ∧ (PatchBody.secret body = None →
           Webhook.secret (after w) = Webhook.secret w)
        ∧ (PatchBody.events body = None →
           Webhook.events (after w) = Webhook.events w)
        ∧ (PatchBody.active body = None →
           Webhook.active (after w) = Webhook.active w)
        ∧ (PatchBody.description body = None →
           Webhook.description (after w) = Webhook.description w)
        ∧ (PatchBody.headers body = None →
           Webhook.headers (after w) = Webhook.headers w)
        ∧ (PatchBody.retryCount body = None →
           Webhook.retryCount (after w) = Webhook.retryCount w).
Proof.
  assert (Hsame : ∃ after : Webhook → Webhook,
            table ≡ₚ after <$> table
            ∧ ∀ w,
                Webhook.id (after w) = Webhook.id w
                ∧ Webhook.userId (after w) = Webhook.userId w
                ∧ Webhook.createdAt (after w) = Webhook.createdAt w
                ∧ (Webhook.id w ≠ id → after w = w)
                ∧ (PatchBody.name body = None →
                   Webhook.name (after w) = Webhook.name w)
                ∧ (PatchBody.url body = None → Webhook.url (after w) = Webhook.url w)
                ∧ (PatchBody.secret body = None →
                   Webhook.secret (after w) = Webhook.secret w)
                ∧ (PatchBody.events body = None →
                   Webhook.events (after w) = Webhook.events w)
                ∧ (PatchBody.active body = None →
                   Webhook.active (after w) = Webhook.active w)
                ∧ (PatchBody.description body = None →
                   Webhook.description (after w) = Webhook.description w)
                ∧ (PatchBody.headers body = None →
                   Webhook.headers (after w) = Webhook.headers w)
                ∧ (PatchBody.retryCount body = None →
                   Webhook.retryCount (after w) = Webhook.retryCount w))
    by (exists (λ w, w); split; [by rewrite list_fmap_id | by intros w; split_and!]).
  unfold patch_webhook.
  destruct userId as [uid |]; [| done].
  destruct (String.eqb uid ""); [done |].
  destruct (read_fault faults); [done |].
  destruct (find_webhook id table) as [w0 |]; [| done].
  destruct (decide (Webhook.userId w0 = Some uid)); [| done].
  destruct (url_rejected URL_parses (PatchBody.url body)); [done |].
  destruct (update_refused body); [done |].
  destruct (write_fault faults); [done |].
  simpl. eexists. split; [reflexivity |].
  intros w. simpl. destruct (decide (Webhook.id w = id)) as [Hid | Hid].
  - unfold apply_update. simpl.
    split_and!; try done; by intros ->.
  - by split_and!.
Qed.

(** What a PATCH by the owner answers and stores. *)
Lemma patch_webhook_updated now userId id body table w' table' :
  patch_webhook URL_parses faults now userId id body table
  = (WebhookUpdated w', table') →
  ∃ w, w ∈ table ∧ Webhook.id w = id
       ∧ w' = apply_update body now w
       ∧ table' = (λ w, if decide (Webhook.id w = id)
                        then apply_update body now w else w) <$> table.
Proof.
  unfold patch_webhook.
  destruct userId as [uid |]; [| done].
  destruct (String.eqb uid ""); [done |].
  destruct (read_fault faults); [done |].
  destruct (find_webhook id table) as [w |] eqn:Hfind; [| done].
  apply find_webhook_Some in Hfind as [Hw Hid].
  destruct (decide (Webhook.userId w = Some uid)); [| done].
  destruct (url_rejected URL_parses (PatchBody.url body)); [done |].
  destruct (update_refused body); [done |].
  destruct (write_fault faults); [done |].
  intros [= <- <-]. by exists w.
Qed.


(** X18: unlike the create handler, a PATCH accepts an empty events array;
    the subscription is then kept by no filter and no dispatch, for any
    event and any tenant, starts a pipeline for it. *)
Theorem patch_accepts_empty_events now userId id body table w' table' :
  patch_webhook URL_parses faults now userId id body table
  = (WebhookUpdated w', table') →
  PatchBody.events body = Some (JArray []) →
  Webhook.events w' = JArray []
  ∧ (∀ env e uid ws w,
       webhooks_table env = table' → matching env e uid = Ok ws → w ∈ ws →
       Webhook.id w ≠ id)
  ∧ ∀ env e d uid s c,
      webhooks_table env = table' →
      c ∈ calls (triggerEvent env e d uid s).2 →
      c ∈ calls s ∨ Webhook.id (call_webhook c) ≠ id.
Proof.
  intros Hpatch Hevents.
  destruct (patch_webhook_updated _ _ _ _ _ _ _ Hpatch) as (w0 & _ & _ & -> & ->).
  assert (Hkept : ∀ env e uid ws w,
            webhooks_table env
            = (λ w, if decide (Webhook.id w = id)
                    then apply_update body now w else w) <$> table →
            matching env e uid = Ok ws → w ∈ ws → Webhook.id w ≠ id).
  { intros env e uid ws w Htable Hws Hw Hid.
    unfold matching in Hws. apply Array_filter_Ok in Hws as [_ ->].
    rewrite Htable in Hw.
    apply list_elem_of_filter in Hw as [He Hw].
    apply list_elem_of_filter in Hw as [_ Hw].
    apply list_elem_of_fmap in Hw as (w1 & -> & _).
    destruct (decide (Webhook.id w1 = id)) as [_ | Hne]; [| done].
    unfold apply_update in He. simpl in He. rewrite Hevents in He. by simpl in He. }
  split_and!; [unfold apply_update; simpl; by rewrite Hevents | done |].
  intros env e d uid s c Htable Hc.
  destruct (triggerEvent_started env e d uid s) as (started & Hcalls & Hstarted).
  rewrite Hcalls in Hc. apply elem_of_app in Hc as [Hc | Hc]; [by left |]. right.
  apply list_elem_of_fmap in Hc as (w & -> & Hw). simpl.
  destruct Hstarted as [-> | [_ Hws]]; [by apply elem_of_nil in Hw |].
  by apply (Hkept env e uid started w).
Qed.

End RouteProperties.

Section ReadProperties.
Context (faults : DbFaults).

(** X19: a DELETE is answered with 204 exactly when the caller owns the
    subscription with that id and neither the query nor the delete raises.
    It then removes exactly the subscriptions with that id and, by the
    cascade of the schema, exactly their recorded attempts: the id is not
    found any more and has no recent deliveries, and the recent deliveries
    of every other subscription are what they were.  Any other reply leaves
    both tables as they were. *)
Theorem delete_webhook_cascades userId id table ledger :
  let '(reply, (table', ledger')) := delete_webhook faults userId id table ledger in
  (reply = NoContent ↔
   read_fault faults = None ∧ write_fault faults = None
   ∧ ∃ uid w, userId = Some uid ∧ uid ≠ "" ∧ find_webhook id table = Some w
              ∧ Webhook.userId w = Some uid)
  ∧ match reply with
    | NoContent =>
        (∀ w, w ∈ table' ↔ w ∈ table ∧ Webhook.id w ≠ id)
        ∧ (∀ d, d ∈ ledger' ↔ d ∈ ledger ∧ Delivery.webhookId d ≠ id)
        ∧ find_webhook id table' = None
        ∧ select_recent_deliveries ledger' id = []
        ∧ (∀ other, other ≠ id →
             select_recent_deliveries ledger' other
             = select_recent_deliveries ledger other)
    | _ => table' = table ∧ ledger' = ledger
    end.
Proof.
  unfold delete_webhook.
  destruct userId as [uid |];
    [| split; [split; [done | by intros (_ & _ & ? & ? & [=] & _)] | done]].
  destruct (String.eqb_spec uid "") as [-> | Huid];
    [split; [split; [done | by intros (_ & _ & ? & ? & [= <-] & ? & _)] | done] |].
  destruct (read_fault faults);
    [split; [split; [done | by intros ([=] & _)] | done] |].
  destruct (find_webhook id table) as [w |] eqn:Hfind;
    [| split; [split; [done | by intros (_ & _ & ? & ? & _ & _ & [=] & _)] | done]].
  destruct (decide (Webhook.userId w = Some uid)) as [Howner | Hother];
    [| split; [split; [done |] | done];
       intros (_ & _ & uid' & w' & [= <-] & _ & [= <-] & Howner); congruence].
  destruct (write_fault faults);
    [split; [split; [done | by intros (_ & [=] & _)] | done] |].
  split; [split; [intros _ | done]; split_and!; try done; by exists uid, w |].
  split_and!.
  - intros w1. rewrite list_elem_of_filter. tauto.
  - intros d. rewrite list_elem_of_filter. tauto.
  - unfold find_webhook. rewrite list_filter_filter.
    rewrite filter_none; [done |]. tauto.
  - unfold select_recent_deliveries. rewrite list_filter_filter.
    rewrite filter_none; [done |]. tauto.
  - intros other Hother. unfold select_recent_deliveries.
    rewrite list_filter_filter. do 2 f_equal.
    apply list_filter_iff. intros d. split; [tauto |].
    intros Hd. split; [done |]. by rewrite Hd.
Qed.

(** X20: the list handler answers with the list exactly when the caller's
    id is truthy and the query does not raise, and the list holds exactly
    the caller's subscriptions, newest first, with their number; its only
    failures are 401, exactly when the caller's id is missing or empty, and
    500. *)
Theorem get_webhooks_lists_own userId table :
  ((∃ ws total, get_webhooks faults userId table = WebhookList ws total)
   ↔ truthy userId = true ∧ read_fault faults = None)
  ∧ match get_webhooks faults userId table with
    | WebhookList ws total =>
        ∃ uid,
          userId = Some uid ∧ uid ≠ ""
          ∧ (∀ w, w ∈ ws ↔ w ∈ table ∧ Webhook.userId w = Some uid)
          ∧ ws ≡ₚ filter (λ w, Webhook.userId w = Some uid) table
          ∧ StronglySorted newer_created ws
          ∧ total = Z.of_nat (length ws)
    | Failure status _ =>
        (status = 401 ∨ status = 500) ∧ (status = 401 ↔ truthy userId = false)
    | _ => False
    end.
Proof.
  unfold get_webhooks, truthy.
  destruct userId as [uid |];
    [| split; [split; [by intros (? & ? & [=]) | by intros [[=] _]] |
               by split; [left |]]].
  destruct (String.eqb_spec uid ""); simpl;
    [split; [split; [by intros (? & ? & [=]) | by intros [[=] _]] |
             by split; [left |]] |].
  destruct (read_fault faults);
    [split; [split; [by intros (? & ? & [=]) | by intros [_ [=]]] |
             by split; [right |]] |].
  split; [split; [done | intros _; by eexists _, _] |].
  exists uid. split_and!; try done.
  - intros w. rewrite merge_sort_Permutation, list_elem_of_filter. tauto.
  - apply merge_sort_Permutation.
  - apply StronglySorted_merge_sort; apply _.
Qed.

(** X21: the detail handler shows a subscription and its statistics only
    to its owner; 404 means that no subscription has the id and 403 that its
    owner is someone else. *)
Theorem get_webhook_owner_only userId id table ledger :
  match get_webhook faults userId id table ledger with
  | WebhookDetail w stats =>
      ∃ uid,
        userId = Some uid
        ∧ w ∈ table ∧ Webhook.id w = id ∧ Webhook.userId w = Some uid
        ∧ stats = getDeliveryStats ledger id
  | Failure status _ =>
      (status = 404 → ∀ w, w ∈ table → Webhook.id w ≠ id)
      ∧ (status = 403 →
         ∃ w, w ∈ table ∧ Webhook.id w = id ∧ Webhook.userId w ≠ userId)
  | _ => False
  end.
Proof.
  unfold get_webhook.
  destruct userId as [uid |]; [| done].
  destruct (String.eqb uid ""); [done |].
  destruct (read_fault faults); [done |].
  destruct (find_webhook id table) as [w |] eqn:Hfind.
  - apply find_webhook_Some in Hfind as [Hw Hid].
    destruct (decide (Webhook.userId w = Some uid)) as [Howner | Hother].
    + by exists uid.
    + split; [done |]. intros _. by exists w.
  - split; [| done]. intros _ w Hw Hid.
    unfold find_webhook in Hfind. apply head_None in Hfind.
    by apply (filter_nil_not_elem_of _ _ w Hfind).
Qed.

(** X22: a page of the delivery history is shown exactly when the caller
    owns the subscription, the offset is not negative and no query raises.
    With [limit = min(limit || 50, 100)], the page has at most [limit] rows
    when that is not negative, and every attempt from the offset on when it
    is, as the query builder leaves a negative LIMIT out.  The rows are
    attempts of the subscription, newest first; [total] counts all attempts
    of the subscription, while the success rate is that of the rows of the
    page, rounded to hundredths (shown for pages of up to 1000 rows). *)
Theorem get_deliveries_page userId id limit offset table ledger :
  let lim := Z.min (number_or limit 50) 100 in
  let mine := filter (λ d, Delivery.webhookId d = id) ledger in
  ((∃ ds total rate,
      get_deliveries faults userId id limit offset table ledger
      = DeliveryPage ds total rate)
   ↔ read_fault faults = None ∧ 0 ≤ number_or offset 0
     ∧ ∃ uid w, userId = Some uid ∧ uid ≠ "" ∧ find_webhook id table = Some w
                ∧ Webhook.userId w = Some uid)
  ∧ match get_deliveries faults userId id limit offset table ledger with
    | DeliveryPage ds total rate =>
        (0 ≤ lim → Z.of_nat (length ds) ≤ lim)
        ∧ (lim < 0 →
           Z.of_nat (length ds)
           = Z.max 0 (Z.of_nat (length mine) - number_or offset 0))
        ∧ (∀ d, d ∈ ds → d ∈ ledger ∧ Delivery.webhookId d = id)
        ∧ StronglySorted newer_first ds
        ∧ total = Z.of_nat (length mine)
        ∧ (Z.of_nat (length ds) ≤ 1000 →
           ∃ r,
             rate = (number r / number 100)%float
             ∧ 2 * Z.abs (r * Z.of_nat (length ds)
                          - 10000 * Z.of_nat (length (filter (λ d, Delivery.success d = 1) ds)))
               ≤ Z.of_nat (length ds))
    | _ => True
    end.
Proof.
  intros lim mine. unfold get_deliveries. fold lim. fold mine.
  destruct userId as [uid |];
    [| split; [split; [by intros (? & ? & ? & [=]) |
                       by intros (_ & _ & ? & ? & [=] & _)] | done]].
  destruct (String.eqb_spec uid "") as [-> | Huid];
    [split; [split; [by intros (? & ? & ? & [=]) |
                     by intros (_ & _ & ? & ? & [= <-] & ? & _)] | done] |].
  destruct (read_fault faults);
    [split; [split; [by intros (? & ? & ? & [=]) | by intros ([=] & _)] | done] |].
  destruct (find_webhook id table) as [w |] eqn:Hfind;
    [| split; [split; [by intros (? & ? & ? & [=]) |
                       by intros (_ & _ & ? & ? & _ & _ & [=] & _)] | done]].
  destruct (decide (Webhook.userId w = Some uid)) as [Howner | Hother];
    [| split; [split; [by intros (? & ? & ? & [=]) |] | done];
       intros (_ & _ & uid' & w' & [= <-] & _ & [= <-] & Howner); congruence].
  destruct (Z.ltb_spec (number_or offset 0) 0) as [Hoff | Hoff];
    [split; [split; [by intros (? & ? & ? & [=]) | intros (_ & ? & _); lia] | done] |].
  split.
  { split; [intros _ | intros _; by eexists _, _, _].
    split_and!; [done | done |]. by exists uid, w. }
  set (sorted := merge_sort newer_first mine).
  set (ds := query_limit lim (drop (Z.to_nat (number_or offset 0)) sorted)).
  assert (Hsub : ∀ d, d ∈ ds → d ∈ drop (Z.to_nat (number_or offset 0)) sorted).
  { intros d. unfold ds, query_limit. destruct (lim <? 0); [done |].
    apply subseteq_take. }
  split_and!.
  - intros Hlim. unfold ds, query_limit.
    destruct (Z.ltb_spec lim 0); [lia |]. rewrite length_take. lia.
  - intros Hlim. unfold ds, query_limit.
    destruct (Z.ltb_spec lim 0); [| lia].
    rewrite length_drop. unfold sorted.
    rewrite (Permutation_length (merge_sort_Permutation _ _)). lia.
  - intros d Hd. apply Hsub in Hd. apply (subseteq_drop _ _ d) in Hd.
    unfold sorted in Hd. rewrite merge_sort_Permutation in Hd.
    apply list_elem_of_filter in Hd. tauto.
  - pose proof (StronglySorted_merge_sort newer_first mine) as Hsorted.
    fold sorted in Hsorted.
    rewrite <- (take_drop (Z.to_nat (number_or offset 0)) sorted) in Hsorted.
    apply StronglySorted_app_1_r in Hsorted.
    unfold ds, query_limit. destruct (lim <? 0); [done |].
    rewrite <- (take_drop (Z.to_nat lim) (drop _ sorted)) in Hsorted.
    by apply StronglySorted_app_1_l in Hsorted.
  - done.
  - set (t := Z.of_nat (length ds)).
    set (k := Z.of_nat (length (filter (λ d, Delivery.success d = 1) ds))).
    intros Hsmall.
    assert (Hk : 0 ≤ k ≤ t)
      by (unfold k, t; split; [lia | apply Nat2Z.inj_le, length_filter]).
    destruct (Z.ltb_spec 0 t) as [Hpos | Hzero].
    + destruct (nearest_hundredth_counts k t Hk ltac:(lia)) as (r & Hr & Hnear).
      exists r. split; [| done].
      unfold Math_round. unfold hundredths in Hr. by rewrite Hr.
    + exists 0. split; [reflexivity | lia].
Qed.

End ReadProperties.

Section TestRouteProperties.
Context (toISOString : Z → string).
Context (env : Env).

Lemma testWebhook_resolves id s :
  ∃ result, (testWebhook toISOString env id s).1 = Ok result.
Proof.
  unfold testWebhook, try_catch.
  match goal with
  | |- ∃ _, (match ?body s with _ => _ end).1 = _ =>
      destruct (body s) as [[result | msg] s']
  end; by eexists.
Qed.

(** X23: the test handler always answers; it runs a test delivery only
    for the owner of the subscription, and every failure reply (401, 403,
    404, 500) comes without anything sent, recorded or scheduled: a 500
    leaves one error in the log and the other failures leave no trace. *)
Theorem post_test_owner_only userId id s :
  ∃ reply s',
    post_test toISOString env userId id s = (Ok reply, s')
    ∧ match reply with
      | TestOutcome _ =>
          ∃ uid w,
            userId = Some uid
            ∧ w ∈ webhooks_table env ∧ Webhook.id w = id
            ∧ Webhook.userId w = Some uid
      | Failure status _ =>
          s' = (if decide (status = 500)
                then add_log (mkLog Error "Failed to test webhook") s else s)
          ∧ (status = 403 →
             ∃ w, w ∈ webhooks_table env ∧ Webhook.id w = id
                  ∧ Webhook.userId w ≠ userId)
      | _ => False
      end.
Proof.
  unfold post_test.
  destruct userId as [uid |]; [| by eexists _, _].
  destruct (String.eqb uid ""); [by eexists _, _ |].
  unfold try_catch, select_webhook_by_id, mbind at 1, M_bind at 1.
  destruct (select_fault env) as [fault |] eqn:Hsel; [by eexists _, _ |].
  destruct (filter (λ w, Webhook.id w = id) (webhooks_table env))
    as [| w rows] eqn:Hrows; simpl; [by eexists _, _ |].
  assert (Hw : w ∈ webhooks_table env ∧ Webhook.id w = id).
  { assert (w ∈ filter (λ w, Webhook.id w = id) (webhooks_table env)) as Hin
      by (rewrite Hrows; by left).
    apply list_elem_of_filter in Hin. tauto. }
  destruct (decide (Webhook.userId w = Some uid)) as [Howner | Hother].
  - unfold mbind, M_bind.
    destruct (testWebhook_resolves id s) as [result Hresult].
    destruct (testWebhook toISOString env id s) as [[result' | msg] s'] eqn:Htest;
      [| by rewrite ?Htest in Hresult].
    simpl. eexists _, _. split; [reflexivity |]. exists uid, w. tauto.
  - simpl. eexists _, _. split; [reflexivity |]. split; [reflexivity |].
    intros _. exists w. split_and!; [tauto | tauto | congruence].
Qed.

End TestRouteProperties.

(** *** Scenarios of the further properties *)

(** Scenario A, whatever the ledger does: three invocations and no timer
    left. *)
Lemma pipeline_terminates_witness :
  timers world0 = []
  ∧ ∃ s',
      pipeline env_a hook_a "video.deleted" JNull world0 = (Ok tt, s')
      ∧ timers s' = []
      ∧ Z.of_nat (length (calls s')) ≤ 3.
Proof.
  split; [reflexivity |].
  destruct (pipeline_terminates env_a hook_a "video.deleted" JNull world0 eq_refl)
    as (s' & Hrun & Hquiet & _ & Hbound).
  exists s'. split_and!; [done | done |]. exact Hbound.
Defined.

Lemma unrecorded_response_is_retried_witness :
  outcome (http env_fault hook_a 1) = inl (respond 200 "OK")
  ∧ insert_fault env_fault hook_a 1 InTry = Some "invalid byte sequence"
  ∧ insert_fault env_fault hook_a 1 InCatch = None
  ∧ (deliverWebhook env_fault hook_a "video.deleted" JNull 1 world0).1 = Ok tt.
Proof.
  split_and!; [reflexivity .. |].
  apply (unrecorded_response_is_retried env_fault hook_a "video.deleted" JNull 1
           world0 (respond 200 "OK") "invalid byte sequence"); reflexivity.
Defined.

Lemma triggerEvent_store_down_witness :
  select_fault env_down = Some "connection refused"
  ∧ triggerEvent env_down "video.deleted" JNull "tenant-x" world0
    = (Ok tt, add_log (mkLog Error "Failed to trigger webhooks") world0).
Proof.
  split; [reflexivity |].
  by apply (triggerEvent_store_down env_down "video.deleted" JNull "tenant-x" world0
              "connection refused").
Defined.


Lemma testWebhook_unknown_witness :
  select_fault env_a = None
  ∧ find_webhook "wh-none" (webhooks_table env_a) = None
  ∧ testWebhook iso_stub env_a "wh-none" world0
    = (Ok (TestResult.mk false "Webhook not found"), world0).
Proof.
  split_and!; [reflexivity | reflexivity |].
  by apply (testWebhook_unknown iso_stub env_a "wh-none" world0).
Defined.

(** The endpoint of scenario A answers 500, and the test reports success. *)
Lemma testWebhook_reports_success_witness :
  select_fault env_a = None
  ∧ find_webhook "wh-a" (webhooks_table env_a) = Some hook_a
  ∧ (∀ site, insert_fault env_a hook_a 1 site = None)
  ∧ attempt_succeeds env_a hook_a 1 = false
  ∧ (testWebhook iso_stub env_a "wh-a" world0).1
    = Ok (TestResult.mk true "Test webhook delivered successfully").
Proof.
  split_and!; [reflexivity | reflexivity | by intros [] | reflexivity |].
  destruct (testWebhook_reports_success iso_stub env_a "wh-a" hook_a world0
              eq_refl eq_refl (λ _, eq_refl)) as (r & s' & Hrun & _).
  by rewrite Hrun.
Defined.

Lemma getDeliveryStats_order_irrelevant_witness :
  filter (λ d, Delivery.webhookId d = "wh-a") ledger_d
    ≡ₚ filter (λ d, Delivery.webhookId d = "wh-a") (reverse ledger_d)
  ∧ (length (filter (λ d, Delivery.webhookId d = "wh-a") ledger_d) ≤ 1000)%nat
  ∧ getDeliveryStats ledger_d "wh-a" = getDeliveryStats (reverse ledger_d) "wh-a".
Proof.
  assert (Hperm : filter (λ d, Delivery.webhookId d = "wh-a") ledger_d
                  ≡ₚ filter (λ d, Delivery.webhookId d = "wh-a") (reverse ledger_d))
    by (by rewrite reverse_Permutation).
  assert (Hlen : (length (filter (λ d, Delivery.webhookId d = "wh-a") ledger_d)
                  ≤ 1000)%nat)
    by (etrans; [apply length_filter | simpl; lia]).
  split_and!; [done | done |].
  by apply getDeliveryStats_order_irrelevant.
Defined.

Lemma created_subscription_is_dispatched_witness :
  ∃ w table' ws,
    create_webhook (λ _, true) store_d (Some "tenant-x") create_plain [hook_a]
    = (ReplyWebhook 201 w, table')
    ∧ matching (scenario table' (http env_a) no_fault) "video.deleted" "tenant-x"
      = Ok ws
    ∧ Webhook.events w = JArray [JString "video.deleted"]
    ∧ mkCall w "video.deleted" JNull 1
      ∈ calls (triggerEvent (scenario table' (http env_a) no_fault)
                 "video.deleted" JNull "tenant-x" world0).2.
Proof.
  eexists _, _, _. split; [reflexivity |]. split; [reflexivity |].
  split; [reflexivity |].
  eapply (created_subscription_is_dispatched (λ _, true) store_d "tenant-x"
            create_plain [hook_a]);
    [reflexivity | reflexivity | reflexivity | reflexivity | reflexivity | by left].
Defined.


Lemma patch_accepts_empty_events_witness :
  ∃ w' table',
    patch_webhook (λ _, true) no_db_fault 2000 (Some "tenant-x") "wh-a"
      patch_no_events [hook_a; hook_other_tenant]
    = (WebhookUpdated w', table')
    ∧ Webhook.events w' = JArray [].
Proof.
  eexists _, _. split; [reflexivity |].
  eapply (proj1 (patch_accepts_empty_events (λ _, true) no_db_fault 2000
                   (Some "tenant-x") "wh-a" patch_no_events
                   [hook_a; hook_other_tenant] _ _ eq_refl eq_refl)).
Defined.

(** Tenant X deletes its subscription: the row and its three recorded
    attempts go, tenant Y's row and the attempt of another subscription
    stay. *)
Lemma delete_webhook_cascades_witness :
  delete_webhook no_db_fault (Some "tenant-x") "wh-a" [hook_a; hook_other_tenant]
    ledger_d
  = (NoContent, ([hook_other_tenant], [attempt_row "wh-b" 1 1 (Some 100) 20]))
  ∧ select_recent_deliveries [attempt_row "wh-b" 1 1 (Some 100) 20] "wh-a" = [].
Proof.
  assert (Hrun : delete_webhook no_db_fault (Some "tenant-x") "wh-a"
                   [hook_a; hook_other_tenant] ledger_d
                 = (NoContent, ([hook_other_tenant],
                                [attempt_row "wh-b" 1 1 (Some 100) 20])))
    by reflexivity.
  split; [done |].
  pose proof (delete_webhook_cascades no_db_fault (Some "tenant-x") "wh-a"
                [hook_a; hook_other_tenant] ledger_d) as Hdelete.
  rewrite Hrun in Hdelete.
  by destruct Hdelete as (_ & _ & _ & _ & Hrecent & _).
Defined.

(** Tenant X lists its subscriptions: its two of the three rows. *)
Lemma get_webhooks_lists_own_witness :
  ∃ ws,
    get_webhooks no_db_fault (Some "tenant-x") [hook_a; hook_other_tenant; hook_inactive]
    = WebhookList ws 2
    ∧ ∀ w, w ∈ ws ↔ w ∈ [hook_a; hook_other_tenant; hook_inactive]
                     ∧ Webhook.userId w = Some "tenant-x".
Proof.
  eexists. split; [reflexivity |].
  pose proof (get_webhooks_lists_own no_db_fault (Some "tenant-x")
                [hook_a; hook_other_tenant; hook_inactive]) as [_ Hlist].
  destruct Hlist as (uid & [= <-] & _ & Hrows & _). exact Hrows.
Defined.

(** The owner of [wh-a] asks for its history with [limit = -5]: the page
    holds all three attempts, newest first. *)
Lemma get_deliveries_page_witness :
  ∃ ds rate,
    get_deliveries no_db_fault (Some "tenant-x") "wh-a" (Some (-5)) None
      [hook_a; hook_other_tenant] ledger_d
    = DeliveryPage ds 3 rate
    ∧ Delivery.attempt <$> ds = [3; 2; 1]
    ∧ Z.of_nat (length ds) = Z.max 0 (3 - 0).
Proof.
  eexists _, _. split; [reflexivity |]. split; [reflexivity |].
  pose proof (get_deliveries_page no_db_fault (Some "tenant-x") "wh-a" (Some (-5))
                None [hook_a; hook_other_tenant] ledger_d) as [_ Hpage].
  destruct Hpage as (_ & Hall & _). apply Hall. reflexivity.
Defined.
